(** * caddy-psl: Public Suffix List placeholders

    A shallow embedding of [handler.go] (package [caddypsl]) and proofs of
    the properties its specification states about the five placeholder
    outputs [is_icann], [public_suffix], [domain_suffix],
    [registered_domain] and [public_registered_domain].

    Conventions.
    - A Go [string] is a byte sequence: Rocq's [string] (a list of [ascii]).
    - A Go [int] is modelled by [Z].  Every integer the handler computes is
      a length, an index into a string or [-1]; lengths are below [2^63],
      so no operation of the handler wraps around.
    - A Go function that may panic (index or slice out of range) or loop
      forever returns in the [run] monad below. *)

From Stdlib Require Import ZArith List Bool Lia.
From Stdlib Require Import Strings.String Strings.Ascii.
Import ListNotations.

Open Scope string_scope.
Open Scope Z_scope.

(** ** Outcomes of running Go code *)

(** [Ret a]: the function returned [a].  [Panic]: a run-time panic (index
    out of range, slice bounds).  [OutOfFuel]: the loop was still running
    when the step budget of the model ran out. *)
Inductive run (A : Type) : Type :=
| Ret (a : A)
| Panic
| OutOfFuel.

Arguments Ret {A} a.
Arguments Panic {A}.
Arguments OutOfFuel {A}.

Definition bind {A B : Type} (m : run A) (k : A -> run B) : run B :=
  match m with
  | Ret a => k a
  | Panic => Panic
  | OutOfFuel => OutOfFuel
  end.

Notation "x <- m ;; k" := (bind m (fun x => k))
  (at level 61, m at next level, right associativity).

(** ** Go strings: indexing and slicing *)

Definition len (s : string) : Z := Z.of_nat (String.length s).

Fixpoint take (n : nat) (s : string) : string :=
  match n, s with
  | S n', String c s' => String c (take n' s')
  | _, _ => ""
  end.

Fixpoint drop (n : nat) (s : string) : string :=
  match n, s with
  | S n', String _ s' => drop n' s'
  | _, _ => s
  end.

(** [s[i]]: panics unless [0 <= i < len(s)]. *)
Definition byte_at (s : string) (i : Z) : run ascii :=
  if (0 <=? i) && (i <? len s) then
    match String.get (Z.to_nat i) s with
    | Some c => Ret c
    | None => Panic
    end
  else Panic.

(** [s[:hi]]: panics unless [0 <= hi <= len(s)]. *)
Definition slice_to (s : string) (hi : Z) : run string :=
  if (0 <=? hi) && (hi <=? len s) then Ret (take (Z.to_nat hi) s) else Panic.

(** [s[lo:]]: panics unless [0 <= lo <= len(s)]. *)
Definition slice_from (s : string) (lo : Z) : run string :=
  if (0 <=? lo) && (lo <=? len s) then Ret (drop (Z.to_nat lo) s) else Panic.

(** [a[i]] on a slice of strings: panics unless [i < len(a)]. *)
Definition part_at (a : list string) (i : nat) : run string :=
  match nth_error a i with
  | Some x => Ret x
  | None => Panic
  end.

(** ** Package [strings] of the Go standard library *)

Module strings.

(** [strings.HasPrefix(s, prefix)]. *)
Fixpoint HasPrefix (s prefix : string) : bool :=
  match prefix with
  | "" => true
  | String p prefix' =>
      match s with
      | "" => false
      | String c s' => Ascii.eqb c p && HasPrefix s' prefix'
      end
  end.

(** [strings.HasSuffix(s, suffix)]:
    [len(s) >= len(suffix) && s[len(s)-len(suffix):] == suffix]. *)
Definition HasSuffix (s suffix : string) : bool :=
  (len s >=? len suffix)
  && String.eqb (drop (Z.to_nat (len s - len suffix)) s) suffix.

(** [strings.IndexByte(s, c)]: index of the first [c] in [s], or [-1]. *)
Fixpoint IndexByte (s : string) (c : ascii) : Z :=
  match s with
  | "" => -1
  | String a s' =>
      if Ascii.eqb a c then 0
      else let r := IndexByte s' c in if r <? 0 then -1 else r + 1
  end.

(** [strings.LastIndexByte(s, c)]: index of the last [c] in [s], or [-1]. *)
Fixpoint LastIndexByte (s : string) (c : ascii) : Z :=
  match s with
  | "" => -1
  | String a s' =>
      let r := LastIndexByte s' c in
      if 0 <=? r then r + 1 else if Ascii.eqb a c then 0 else -1
  end.

(** [strings.Index(s, substr)]: index of the first instance of [substr]
    in [s], or [-1]. *)
Fixpoint Index (s substr : string) : Z :=
  match s with
  | "" => if HasPrefix "" substr then 0 else -1
  | String a s' =>
      if HasPrefix (String a s') substr then 0
      else let r := Index s' substr in if r <? 0 then -1 else r + 1
  end.

(** [strings.LastIndex(s, substr)]: index of the last instance of
    [substr] in [s], or [-1]. *)
Fixpoint LastIndex (s substr : string) : Z :=
  match s with
  | "" => if HasPrefix "" substr then 0 else -1
  | String a s' =>
      let r := LastIndex s' substr in
      if 0 <=? r then r + 1
      else if HasPrefix (String a s') substr then 0 else -1
  end.

(** [strings.Cut(s, sep)]:
    [if i := Index(s, sep); i >= 0 { return s[:i], s[i+len(sep):], true }
     return s, "", false]. *)
Definition Cut (s sep : string) : string * string * bool :=
  let i := Index s sep in
  if 0 <=? i
  then (take (Z.to_nat i) s, drop (Z.to_nat (i + len sep)) s, true)
  else (s, "", false).

(** [strings.Split(s, sep)] for a non-empty [sep]: cut at every instance
    of [sep].  Each cut removes at least one byte, so [length s] rounds
    are enough. *)
Fixpoint Split_rounds (n : nat) (s sep : string) : list string :=
  match n with
  | O => [s]
  | S n' =>
      let '(before, after, found) := Cut s sep in
      if found then before :: Split_rounds n' after sep else [s]
  end.

Definition Split (s sep : string) : list string :=
  Split_rounds (String.length s) s sep.

(** [strings.ToLower(s)] on ASCII input: the letters [A]..[Z] map to
    [a]..[z], every other byte is kept.  (Hosts are ASCII or punycode;
    the Unicode case mapping of other bytes is not modelled.) *)
Definition is_upper (c : ascii) : bool :=
  (Nat.leb 65 (nat_of_ascii c) && Nat.leb (nat_of_ascii c) 90)%bool.

Definition lower_byte (c : ascii) : ascii :=
  if is_upper c then ascii_of_nat (nat_of_ascii c + 32) else c.

Fixpoint ToLower (s : string) : string :=
  match s with
  | "" => ""
  | String c s' => String (lower_byte c) (ToLower s')
  end.

End strings.

(** ** [suffixPlusOne] (handler.go, lines 154-164) *)

(** [suffixPlusOne] returns the suffix plus one more label (the next-left
    just before the suffix). *)
Definition suffixPlusOne (domain suffix : string) : run string :=
  if len suffix >=? len domain then Ret ""
  else
    let i := len domain - len suffix - 1 in
    c <- byte_at domain i ;;
    if negb (Ascii.eqb c ".") then Ret ""
    else
      head <- slice_to domain i ;;
      slice_from domain (strings.LastIndex head "." + 1).


(** ** [net.SplitHostPort] of the Go standard library *)

Module net.

(** [SplitHostPort(hostport)] splits [host:port], [[host]:port] and the
    like into host and port.  [None] stands for a non-nil [err] (missing
    port, too many colons, misplaced brackets). *)
Definition SplitHostPort (hostport : string) : option (string * string) :=
  let i := strings.LastIndexByte hostport ":" in
  let finish (host : string) (j k : Z) :=
    if 0 <=? strings.IndexByte (drop (Z.to_nat j) hostport) "[" then None
    else if 0 <=? strings.IndexByte (drop (Z.to_nat k) hostport) "]" then None
    else Some (host, drop (Z.to_nat (i + 1)) hostport) in
  if i <? 0 then None
  else
    match hostport with
    | String "[" _ =>
        let end_ := strings.IndexByte hostport "]" in
        if end_ <? 0 then None
        else if end_ + 1 =? len hostport then None
        else if end_ + 1 =? i
             then finish (take (Z.to_nat (end_ - 1)) (drop 1 hostport)) 1 (end_ + 1)
             else None
    | _ =>
        let host := take (Z.to_nat i) hostport in
        if 0 <=? strings.IndexByte host ":" then None
        else finish host 0 0
    end.

End net.

(** ** The handler (handler.go, lines 72-183) *)

(** The values a placeholder yields: Go's [any] holding a [string] or a
    [bool]. *)
Inductive any : Type :=
| str (s : string)
| boolean (b : bool).

(** What [ServeHTTP] reads of the [*http.Request]: [r.URL.Query().Get],
    [r.Host] and [r.Header.Get]. *)
Record Request : Type := {
  URL_Query_Get : string -> string;
  Host : string;
  Header_Get : string -> string
}.

Section Handler.

(** [publicsuffix.PublicSuffix] of [golang.org/x/net/publicsuffix], which
    handler.go imports: the longest suffix of the domain that matches the
    Public Suffix List, and whether that match is ICANN-managed.  The
    package is not part of this repository, so the handler is embedded
    over any function of this type. *)
Variable PublicSuffix : string -> string * bool.

(** [icannSuffix] returns the eTLD that is ICANN-managed; i.e.
    "foo.blogspot.com" -> "com", even though "blogspot.com" is on the PSL.
    One unit of [fuel] pays for one iteration of the [for] loop. *)
Fixpoint icannSuffix (fuel : nat) (domain : string) : run string :=
  match fuel with
  | O => OutOfFuel
  | S fuel' =>
      let '(eTLD, icann) := PublicSuffix domain in
      if icann then Ret eTLD
      else
        (* not an ICANN domain, so must be a privately-managed domain if
           there's a dot *)
        if strings.IndexByte eTLD "." >=? 0 then
          let '(_, domain', ok) := strings.Cut eTLD "." in
          if negb ok then Ret ""
          else icannSuffix fuel' domain'
        else icannSuffix fuel' domain
  end.

(** [registeredDomain] returns the eTLD+1, where the eTLD must be
    ICANN-managed. *)
Definition registeredDomain (fuel : nat) (domain : string) : run string :=
  publicSuffix <- icannSuffix fuel domain ;;
  suffixPlusOne domain publicSuffix.

(** The cases of the [switch parts[2]] of [ServeHTTP], one definition per
    placeholder ending. *)

(** [case "registered_domain"] (line 117). *)
Definition registered_domain (fuel : nat) (domain : string) : run string :=
  registeredDomain fuel domain.

(** [case "public_registered_domain"] (lines 120-125). *)
Definition public_registered_domain (domain : string) : run string :=
  let '(eTLD, icann) := PublicSuffix domain in
  if icann then suffixPlusOne domain eTLD else Ret "".

(** [case "public_suffix"] (lines 127-131). *)
Definition public_suffix (fuel : nat) (domain : string) : run string :=
  icannSuffix fuel domain.

(** [case "domain_suffix"] (lines 133-135). *)
Definition domain_suffix (domain : string) : string :=
  let '(eTLD, _) := PublicSuffix domain in eTLD.

(** [case "is_icann"] (lines 137-139). *)
Definition is_icann (domain : string) : bool :=
  let '(_, icann) := PublicSuffix domain in icann.

(** The [switch parts[2]] itself; [None] is the final [return nil, false]. *)
Definition output (fuel : nat) (ending domain : string) : run (option any) :=
  if String.eqb ending "registered_domain" then
    v <- registered_domain fuel domain ;; Ret (Some (str v))
  else if String.eqb ending "public_registered_domain" then
    v <- public_registered_domain domain ;; Ret (Some (str v))
  else if String.eqb ending "public_suffix" then
    v <- public_suffix fuel domain ;; Ret (Some (str v))
  else if String.eqb ending "domain_suffix" then
    Ret (Some (str (domain_suffix domain)))
  else if String.eqb ending "is_icann" then
    Ret (Some (boolean (is_icann domain)))
  else Ret None.

(** Lines 104-108: it's OK if there's an error here, just assume there was
    no port. *)
Definition hostDomain (host : string) : string :=
  match net.SplitHostPort host with
  | Some (domain, _) => domain
  | None => host
  end.

(** Lines 89-102: the input the placeholder prefix selects; [None] is the
    [default] case. *)
Definition inputHost (r : Request) (parts0 parts1 : string) : option string :=
  if String.eqb parts0 "qs" then Some (URL_Query_Get r parts1)
  else if String.eqb parts0 "header" then
    if String.eqb (strings.ToLower parts1) "host" then Some (Host r)
    else Some (Header_Get r parts1)
  else None.

(** The function [ServeHTTP] hands to [repl.Map] (lines 75-143): the value
    of the placeholder [key], or [None] for [nil, false].  [parts[0]],
    [parts[1]] and [parts[2]] are indexed as Go does, with a panic out of
    range; [parts[1]] is read before the switch on [parts[0]], the source
    reads it inside the cases [qs] and [header]. *)
Definition placeholder (fuel : nat) (r : Request) (key : string)
  : run (option any) :=
  if negb (strings.HasSuffix key ".registered_domain")
     && negb (strings.HasSuffix key ".public_registered_domain")
     && negb (strings.HasSuffix key ".public_suffix")
     && negb (strings.HasSuffix key ".domain_suffix")
     && negb (strings.HasSuffix key ".is_icann")
  then Ret None
  else
    let parts := strings.Split key "." in
    if Z.of_nat (List.length parts) <? 3 then Ret None
    else
      parts0 <- part_at parts 0 ;;
      parts1 <- part_at parts 1 ;;
      match inputHost r parts0 parts1 with
      | None => Ret None
      | Some host =>
          parts2 <- part_at parts 2 ;;
          output fuel parts2 (hostDomain host)
      end.

End Handler.

(** ** The rule database and its lookup *)

Module PSL.

(** The kind of a rule: [Wildcard] matches one arbitrary label to the left
    of its labels, [Exception] matches its labels and gives up the
    leftmost. *)
Inductive RuleKind : Type := Exact | Wildcard | Exception.

Inductive Authority : Type := ICANN | PRIVATE.

(** A [Rule]: [labels] are stored right-to-left (["uk"; "co"] for the rule
    [co.uk]). *)
Record Rule : Type := {
  labels : list string;
  kind : RuleKind;
  authority : Authority
}.

Definition RuleDatabase : Type := list Rule.

Record MatchResult : Type := {
  suffix_label_count : nat;
  match_authority : Authority
}.

Definition is_exception (r : Rule) : bool :=
  match kind r with Exception => true | _ => false end.

Definition authority_is_icann (a : Authority) : bool :=
  match a with ICANN => true | PRIVATE => false end.

(** The labels of a domain, left to right as written: the domain split at
    every dot. *)
Fixpoint domain_labels (d : string) : list string :=
  match d with
  | "" => [""]
  | String c d' =>
      if Ascii.eqb c "." then "" :: domain_labels d'
      else
        match domain_labels d' with
        | l :: ls => String c l :: ls
        | [] => [String c ""]
        end
  end.

(** The inverse of [domain_labels]: labels joined with dots. *)
Fixpoint join_labels (ls : list string) : string :=
  match ls with
  | [] => ""
  | [l] => l
  | l :: ls' => l ++ "." ++ join_labels ls'
  end.

(** The last [n] labels of a domain. *)
Definition last_labels (n : nat) (ls : list string) : list string :=
  skipn (List.length ls - n) ls.

Fixpoint labels_eqb (a b : list string) : bool :=
  match a, b with
  | [], [] => true
  | x :: a', y :: b' => String.eqb x y && labels_eqb a' b'
  | _, _ => false
  end.

(** The number of domain labels a rule consumes when it matches: a wildcard
    matches one more label than it stores. *)
Definition rule_depth (r : Rule) : nat :=
  match kind r with
  | Wildcard => S (List.length (labels r))
  | _ => List.length (labels r)
  end.

Definition max_rule_depth (db : RuleDatabase) : nat :=
  fold_right (fun r m => Nat.max (rule_depth r) m) O db.

(** Whether the last [L] labels of the domain match rule [r]: an exact
    match on the labels, or a wildcard match where the leftmost of the [L]
    labels is arbitrary. *)
Definition rule_matches (r : Rule) (L : nat) (dom : list string) : bool :=
  (Nat.eqb (rule_depth r) L && Nat.leb L (List.length dom))%bool
  && match kind r with
     | Wildcard => labels_eqb (rev (last_labels (L - 1) dom)) (labels r)
     | _ => labels_eqb (rev (last_labels L dom)) (labels r)
     end.

(** The first rule satisfying [p] that matches at a suffix length from [L]
    down to 1. *)
Fixpoint scan (p : Rule -> bool) (db : RuleDatabase) (dom : list string)
  (L : nat) : option (nat * Rule) :=
  match L with
  | O => None
  | S L' =>
      match find (fun r => p r && rule_matches r L dom) db with
      | Some r => Some (L, r)
      | None => scan p db dom L'
      end
  end.

(** Modelled from the spec: the RuleDatabase lookup (section 4.1), which
    the source takes from the imported package
    [golang.org/x/net/publicsuffix].  It examines the suffix lengths from
    [min(len(domain.labels), database.max_rule_depth)] down to 1; exception
    rules are checked first and win with one label less than they store;
    among the other rules the longest match wins; if no rule matches, the
    implicit default is one label under ICANN authority. *)
Definition lookup (db : RuleDatabase) (dom : list string) : MatchResult :=
  let top := Nat.min (List.length dom) (max_rule_depth db) in
  match scan is_exception db dom top with
  | Some (_, r) =>
      {| suffix_label_count := List.length (labels r) - 1;
         match_authority := authority r |}
  | None =>
      match scan (fun r => negb (is_exception r)) db dom top with
      | Some (L, r) =>
          {| suffix_label_count := L; match_authority := authority r |}
      | None => {| suffix_label_count := 1; match_authority := ICANN |}
      end
  end.

(** Modelled from the spec: the lookup as the handler calls it, from a
    domain string to the matched suffix string and whether its authority
    is ICANN (sections 3 and 4.2: [domain_suffix] joins the last
    [suffix_label_count] labels with dots, [is_icann] compares the
    authority with ICANN).  The empty domain is invalid and yields the
    empty suffix and [false]. *)
Definition PublicSuffix (db : RuleDatabase) (domain : string)
  : string * bool :=
  if String.eqb domain "" then ("", false)
  else
    let dom := domain_labels domain in
    let m := lookup db dom in
    (join_labels (last_labels (suffix_label_count m) dom),
     authority_is_icann (match_authority m)).

(** The invariant of section 3 on exception rules: each carves one label
    out of a wildcard rule, so it stores at least two labels. *)
Definition well_formed (db : RuleDatabase) : bool :=
  forallb (fun r => negb (is_exception r)
                    || Nat.leb 2 (List.length (labels r))) db.

Definition rule (k : RuleKind) (a : Authority) (right_to_left : list string)
  : Rule :=
  {| labels := right_to_left; kind := k; authority := a |}.

(** A small database with the rules the specification's scenarios use:
    [com], [au], [com.au], [uk], [co.uk], [*.ck] and [!www.ck] under ICANN,
    [blogspot.com] under private management. *)
Definition sample_db : RuleDatabase :=
  [ rule Exact ICANN ["com"];
    rule Exact ICANN ["au"];
    rule Exact ICANN ["au"; "com"];
    rule Exact ICANN ["uk"];
    rule Exact ICANN ["uk"; "co"];
    rule Wildcard ICANN ["ck"];
    rule Exception ICANN ["ck"; "www"];
    rule Exact PRIVATE ["com"; "blogspot"] ].

End PSL.

(** ** The vocabulary of the specification *)

(** [s] is a trailing substring of [d]. *)
Definition is_suffix (s d : string) : Prop :=
  exists p, d = p ++ s.

(** [s] is a dot-delimited trailing substring of [d]: all of [d], or what
    follows one of its dots. *)
Definition dot_suffix (s d : string) : Prop :=
  s = d \/ exists p, d = p ++ "." ++ s.

(** What the handler relies on from the lookup: the suffix it reports is a
    dot-delimited trailing substring of the domain it was given. *)
Definition reports_suffixes (lookup : string -> string * bool) : Prop :=
  forall domain eTLD icann,
    lookup domain = (eTLD, icann) -> dot_suffix eTLD domain.

Fixpoint count_dots (s : string) : nat :=
  match s with
  | "" => O
  | String c s' => if Ascii.eqb c "." then S (count_dots s') else count_dots s'
  end.

(** The number of dot-separated labels of a string. *)
Definition label_count (s : string) : nat :=
  List.length (PSL.domain_labels s).

(** The last label of a string: what follows its last dot, or all of it. *)
Definition last_label (p : string) : string :=
  drop (Z.to_nat (strings.LastIndex p "." + 1)) p.

(** A host without upper-case ASCII letters. *)
Fixpoint lower_case (s : string) : bool :=
  match s with
  | "" => true
  | String c s' => negb (strings.is_upper c) && lower_case s'
  end.

Module Decomposer.

(** The position of the last dot of a string, if it has one. *)
Fixpoint last_dot (s : string) : option nat :=
  match s with
  | "" => None
  | String c s' =>
      match last_dot s' with
      | Some j => Some (S j)
      | None => if Ascii.eqb c "." then Some O else None
      end
  end.

(** [suffix_plus_one] in the words of section 4.3 of the specification: if
    [len(suffix_string) >= len(domain_string)], return empty; let
    [i := len(domain_string) - len(suffix_string) - 1]; the character at
    [i] must be a dot, if not return empty; return the substring of
    [domain_string] starting just after the last dot found in
    [domain_string[0..i)] through the end of the string (the whole string
    when there is no such dot). *)
Definition suffix_plus_one (domain_string suffix_string : string) : string :=
  if Nat.leb (String.length domain_string) (String.length suffix_string)
  then ""
  else
    let i := (String.length domain_string
              - String.length suffix_string - 1)%nat in
    match String.get i domain_string with
    | Some c =>
        if Ascii.eqb c "." then
          match last_dot (take i domain_string) with
          | Some j => drop (S j) domain_string
          | None => domain_string
          end
        else ""
    | None => ""
    end.

End Decomposer.

Module Classifier.

(** The iterative peeling of section 4.2 as a relation between the probe
    and the suffix returned: an ICANN match of the probe is returned
    (step 3); a private match of more than one label loses its leftmost
    label and the rest becomes the probe (step 5). *)
Inductive peels (lookup : string -> string * bool) : string -> string -> Prop :=
| peels_icann probe matched :
    lookup probe = (matched, true) ->
    peels lookup probe matched
| peels_private probe matched label rest result :
    lookup probe = (matched, false) ->
    matched = label ++ "." ++ rest ->
    count_dots label = O ->
    peels lookup rest result ->
    peels lookup probe result.

End Classifier.

(** ** The vocabulary of the handler's keys and hosts *)

(** The five placeholder endings of the [switch parts[2]]. *)
Definition endings : list string :=
  [ "registered_domain"; "public_registered_domain"; "public_suffix";
    "domain_suffix"; "is_icann" ].

(** Whether the byte [c] occurs in [s]. *)
Fixpoint has_byte (c : ascii) (s : string) : bool :=
  match s with
  | "" => false
  | String a s' => Ascii.eqb a c || has_byte c s'
  end.

(** A host or port without colon and brackets. *)
Definition plain (s : string) : bool :=
  negb (has_byte ":" s) && negb (has_byte "[" s) && negb (has_byte "]" s).

(** A byte that [strings.ToLower] neither makes nor removes. *)
Definition case_free (c : ascii) : Prop :=
  forall a, Ascii.eqb (strings.lower_byte a) c = Ascii.eqb a c.

(** ** Evaluation on the scenarios of the specification *)

Definition sample_PublicSuffix : string -> string * bool :=
  PSL.PublicSuffix PSL.sample_db.

Definition sample_request (host : string) : Request :=
  {| URL_Query_Get := fun _ => ""; Host := host; Header_Get := fun _ => "" |}.

Example lookup_sub_example_com :
  sample_PublicSuffix "sub.example.com" = ("com", true).
Proof. reflexivity. Qed.

Example lookup_foo_bar_com_au :
  sample_PublicSuffix "foo.bar.com.au" = ("com.au", true).
Proof. reflexivity. Qed.

Example lookup_foo_blogspot_com :
  sample_PublicSuffix "foo.blogspot.com" = ("blogspot.com", false).
Proof. reflexivity. Qed.

Example lookup_wildcard :
  sample_PublicSuffix "a.b.ck" = ("b.ck", true).
Proof. reflexivity. Qed.

Example lookup_exception :
  sample_PublicSuffix "a.www.ck" = ("ck", true).
Proof. reflexivity. Qed.

Example lookup_localhost :
  sample_PublicSuffix "localhost" = ("localhost", true).
Proof. reflexivity. Qed.

Example placeholder_registered_domain :
  placeholder sample_PublicSuffix 5 (sample_request "sub.example.com:8080")
    "header.Host.registered_domain" = Ret (Some (str "example.com")).
Proof. reflexivity. Qed.

Example placeholder_public_suffix_blogspot :
  placeholder sample_PublicSuffix 5 (sample_request "foo.blogspot.com")
    "header.host.public_suffix" = Ret (Some (str "com")).
Proof. reflexivity. Qed.

Example placeholder_unknown_prefix :
  placeholder sample_PublicSuffix 5 (sample_request "example.com")
    "cookie.Host.is_icann" = Ret None.
Proof. reflexivity. Qed.

Example suffixPlusOne_sub_example_com :
  suffixPlusOne "sub.example.com" "com" = Ret "example.com".
Proof. reflexivity. Qed.

Example suffixPlusOne_no_room :
  suffixPlusOne "localhost" "localhost" = Ret "".
Proof. reflexivity. Qed.

Example suffix_plus_one_sub_example_com :
  Decomposer.suffix_plus_one "sub.example.com" "com" = "example.com".
Proof. reflexivity. Qed.

Example suffixPlusOne_inconsistent :
  suffixPlusOne "example.com" "om" = Ret "".
Proof. reflexivity. Qed.

(** * Proofs *)

(** ** Strings: lengths, prefixes and suffixes *)

Lemma length_app (a b : string) :
  String.length (a ++ b) = (String.length a + String.length b)%nat.
Proof. induction a as [|c a IH]; simpl; [reflexivity | now rewrite IH]. Qed.

Lemma append_assoc (a b c : string) : (a ++ b) ++ c = a ++ (b ++ c).
Proof. induction a as [|x a IH]; simpl; [reflexivity | now rewrite IH]. Qed.

Lemma len_nonneg (s : string) : 0 <= len s.
Proof. unfold len; lia. Qed.

Lemma len_app (a b : string) : len (a ++ b) = len a + len b.
Proof. unfold len; rewrite length_app; lia. Qed.

Lemma take_drop (n : nat) (s : string) : take n s ++ drop n s = s.
Proof.
  revert s; induction n as [|n IH]; intros [|c s]; simpl; try reflexivity.
  now rewrite IH.
Qed.

Lemma length_take (n : nat) (s : string) :
  (n <= String.length s)%nat -> String.length (take n s) = n.
Proof.
  revert s; induction n as [|n IH]; intros [|c s]; simpl; intros H;
    try reflexivity; try lia.
  rewrite IH; lia.
Qed.

Lemma take_app_length (p q : string) : take (String.length p) (p ++ q) = p.
Proof.
  induction p as [|c p IH]; simpl; [now destruct q | now rewrite IH].
Qed.

Lemma drop_app_le (n : nat) (p q : string) :
  (n <= String.length p)%nat -> drop n (p ++ q) = drop n p ++ q.
Proof.
  revert p; induction n as [|n IH]; intros [|c p]; simpl; intros H;
    try reflexivity; try lia.
  apply IH; lia.
Qed.

Lemma get_app_length (p : string) (c : ascii) (q : string) :
  String.get (String.length p) (p ++ String c q) = Some c.
Proof. induction p as [|x p IH]; simpl; [reflexivity | exact IH]. Qed.

Lemma get_in_range (n : nat) (s : string) :
  (n < String.length s)%nat -> exists c, String.get n s = Some c.
Proof.
  revert n; induction s as [|x s IH]; simpl; intros n H; [lia|].
  destruct n as [|n]; [now exists x | apply IH; lia].
Qed.

Lemma is_suffix_refl (s : string) : is_suffix s s.
Proof. now exists "". Qed.

Lemma dot_suffix_refl (s : string) : dot_suffix s s.
Proof. now left. Qed.

Lemma dot_suffix_trans (a b c : string) :
  dot_suffix a b -> dot_suffix b c -> dot_suffix a c.
Proof.
  intros [->|[p ->]] H; [exact H|].
  destruct H as [<-|[q ->]]; right.
  - now exists p.
  - exists (q ++ "." ++ p). now rewrite !append_assoc.
Qed.

Lemma dot_suffix_is_suffix (s d : string) : dot_suffix s d -> is_suffix s d.
Proof.
  intros [->|[p ->]]; [apply is_suffix_refl|].
  exists (p ++ "."). now rewrite append_assoc.
Qed.

Lemma is_suffix_length (s d : string) :
  is_suffix s d -> (String.length s <= String.length d)%nat.
Proof. intros [p ->]. rewrite length_app. lia. Qed.

(** ** Strings: dots and labels *)

Lemma count_dots_app (a b : string) :
  count_dots (a ++ b) = (count_dots a + count_dots b)%nat.
Proof.
  induction a as [|c a IH]; simpl; [reflexivity|].
  destruct (Ascii.eqb c "."); rewrite IH; reflexivity.
Qed.

Lemma IndexByte_range (s : string) (c : ascii) :
  -1 <= strings.IndexByte s c < len s.
Proof.
  induction s as [|a s IH]; unfold len in *; simpl String.length; simpl.
  - lia.
  - destruct (Ascii.eqb a c); [lia|].
    destruct (strings.IndexByte s c <? 0) eqn:E; [lia|].
    apply Z.ltb_ge in E. lia.
Qed.

Lemma IndexByte_dot_count (s : string) :
  strings.IndexByte s "." < 0 <-> count_dots s = O.
Proof.
  induction s as [|a s IH]; simpl.
  - split; [reflexivity | lia].
  - destruct (Ascii.eqb a "."); [split; [lia | discriminate]|].
    destruct (strings.IndexByte s "." <? 0) eqn:E.
    + apply Z.ltb_lt in E. split; [intros _; now apply IH | lia].
    + apply Z.ltb_ge in E. split; [lia | intros H; apply IH in H; lia].
Qed.

Lemma HasPrefix_empty (s : string) : strings.HasPrefix s "" = true.
Proof. now destruct s. Qed.

Lemma Index_dot (s : string) : strings.Index s "." = strings.IndexByte s ".".
Proof.
  induction s as [|a s IH]; simpl; [reflexivity|].
  rewrite HasPrefix_empty, andb_true_r, IH. reflexivity.
Qed.

(** Where [IndexByte] finds a byte, the string splits around it and the
    part before holds no other instance. *)
Lemma IndexByte_split (s : string) (c : ascii) :
  0 <= strings.IndexByte s c ->
  let i := Z.to_nat (strings.IndexByte s c) in
  s = take i s ++ String c (drop (S i) s)
  /\ strings.IndexByte (take i s) c < 0.
Proof.
  induction s as [|a s IH]; simpl; [lia|].
  destruct (Ascii.eqb a c) eqn:E.
  - intros _. apply Ascii.eqb_eq in E as ->. simpl. split; [reflexivity | lia].
  - destruct (strings.IndexByte s c <? 0) eqn:N; [lia|].
    apply Z.ltb_ge in N. intros _.
    destruct (IH N) as [Hs Hn].
    replace (Z.to_nat (strings.IndexByte s c + 1))
      with (S (Z.to_nat (strings.IndexByte s c))) by lia.
    simpl. rewrite E. split.
    + f_equal. exact Hs.
    + destruct (strings.IndexByte (take _ s) c <? 0) eqn:M; [lia|].
      apply Z.ltb_ge in M. lia.
Qed.

(** [strings.Cut(s, ".")] on a string with a dot: the first label, the
    rest, and [true]. *)
Lemma Cut_dot (s : string) :
  0 <= strings.IndexByte s "." ->
  exists label rest,
    strings.Cut s "." = (label, rest, true)
    /\ s = label ++ "." ++ rest
    /\ count_dots label = O.
Proof.
  intros H. unfold strings.Cut. rewrite Index_dot.
  destruct (0 <=? strings.IndexByte s ".") eqn:E; [|apply Z.leb_gt in E; lia].
  destruct (IndexByte_split s "." H) as [Hs Hn].
  exists (take (Z.to_nat (strings.IndexByte s ".")) s),
         (drop (S (Z.to_nat (strings.IndexByte s "."))) s).
  repeat split.
  - do 2 f_equal. f_equal. unfold len; simpl. lia.
  - exact Hs.
  - now apply IndexByte_dot_count.
Qed.

Lemma Cut_no_dot (s : string) :
  strings.IndexByte s "." < 0 -> strings.Cut s "." = (s, "", false).
Proof.
  intros H. unfold strings.Cut. rewrite Index_dot.
  destruct (0 <=? strings.IndexByte s ".") eqn:E; [apply Z.leb_le in E; lia|].
  reflexivity.
Qed.

Lemma LastIndex_dot (s : string) :
  strings.LastIndex s "." =
  match Decomposer.last_dot s with
  | Some j => Z.of_nat j
  | None => -1
  end.
Proof.
  induction s as [|a s IH]; simpl; [reflexivity|].
  rewrite IH, HasPrefix_empty, andb_true_r.
  destruct (Decomposer.last_dot s) as [j|].
  - destruct (0 <=? Z.of_nat j) eqn:E; [lia | apply Z.leb_gt in E; lia].
  - simpl. now destruct (Ascii.eqb a ".").
Qed.

Lemma last_dot_range (s : string) (j : nat) :
  Decomposer.last_dot s = Some j -> (j < String.length s)%nat.
Proof.
  revert j; induction s as [|a s IH]; simpl; intros j H; [discriminate|].
  destruct (Decomposer.last_dot s) as [k|].
  - injection H as <-. specialize (IH k eq_refl). lia.
  - destruct (Ascii.eqb a "."); [injection H as <-; lia | discriminate].
Qed.

Lemma last_dot_none (s : string) :
  Decomposer.last_dot s = None -> count_dots s = O.
Proof.
  induction s as [|a s IH]; simpl; [reflexivity|].
  destruct (Decomposer.last_dot s); [discriminate|].
  destruct (Ascii.eqb a "."); [discriminate | intros _; now apply IH].
Qed.

Lemma last_dot_tail (s : string) (j : nat) :
  Decomposer.last_dot s = Some j -> count_dots (drop (S j) s) = O.
Proof.
  revert j; induction s as [|a s IH]; simpl; intros j H; [discriminate|].
  destruct (Decomposer.last_dot s) as [k|] eqn:E.
  - injection H as <-. now apply IH.
  - destruct (Ascii.eqb a "."); [|discriminate].
    injection H as <-. simpl. now apply last_dot_none.
Qed.

Lemma last_label_no_dot (p : string) : count_dots (last_label p) = O.
Proof.
  unfold last_label. rewrite LastIndex_dot.
  destruct (Decomposer.last_dot p) as [j|] eqn:E.
  - replace (Z.to_nat (Z.of_nat j + 1)) with (S j) by lia.
    now apply last_dot_tail.
  - simpl. now apply last_dot_none.
Qed.

Lemma LastIndex_dot_range (s : string) :
  -1 <= strings.LastIndex s "." < len s.
Proof.
  rewrite LastIndex_dot. unfold len.
  destruct (Decomposer.last_dot s) as [j|] eqn:E.
  - apply last_dot_range in E. lia.
  - lia.
Qed.

Lemma domain_labels_length (s : string) :
  List.length (PSL.domain_labels s) = S (count_dots s).
Proof.
  induction s as [|c s IH]; simpl; [reflexivity|].
  destruct (Ascii.eqb c "."); simpl; [now rewrite IH|].
  destruct (PSL.domain_labels s); simpl in *; [discriminate | exact IH].
Qed.

Lemma label_count_dots (s : string) : label_count s = S (count_dots s).
Proof. apply domain_labels_length. Qed.

(** ** [suffixPlusOne] *)

Lemma byte_at_in_range (s : string) (i : Z) :
  0 <= i < len s ->
  exists c, String.get (Z.to_nat i) s = Some c /\ byte_at s i = Ret c.
Proof.
  intros H. unfold byte_at.
  destruct (get_in_range (Z.to_nat i) s) as [c Hc]; [unfold len in H; lia|].
  exists c. split; [exact Hc|].
  replace (0 <=? i) with true by (symmetry; apply Z.leb_le; lia).
  replace (i <? len s) with true by (symmetry; apply Z.ltb_lt; lia).
  simpl. now rewrite Hc.
Qed.

Lemma slice_to_in_range (s : string) (hi : Z) :
  0 <= hi <= len s -> slice_to s hi = Ret (take (Z.to_nat hi) s).
Proof.
  intros H. unfold slice_to.
  replace (0 <=? hi) with true by (symmetry; apply Z.leb_le; lia).
  replace (hi <=? len s) with true by (symmetry; apply Z.leb_le; lia).
  reflexivity.
Qed.

Lemma slice_from_in_range (s : string) (lo : Z) :
  0 <= lo <= len s -> slice_from s lo = Ret (drop (Z.to_nat lo) s).
Proof.
  intros H. unfold slice_from.
  replace (0 <=? lo) with true by (symmetry; apply Z.leb_le; lia).
  replace (lo <=? len s) with true by (symmetry; apply Z.leb_le; lia).
  reflexivity.
Qed.

(** The run of [suffixPlusOne] when there is room for one more label. *)
Lemma suffixPlusOne_room (domain suffix : string) :
  len suffix < len domain ->
  let i := len domain - len suffix - 1 in
  exists c,
    String.get (Z.to_nat i) domain = Some c
    /\ suffixPlusOne domain suffix =
       if Ascii.eqb c "." then
         Ret (drop (Z.to_nat
                      (strings.LastIndex (take (Z.to_nat i) domain) "." + 1))
                domain)
       else Ret "".
Proof.
  intros H i. unfold suffixPlusOne. fold i.
  pose proof (len_nonneg suffix) as Hs.
  replace (len suffix >=? len domain) with false
    by (symmetry; rewrite Z.geb_leb; apply Z.leb_gt; lia).
  destruct (byte_at_in_range domain i) as (c & Hc & ->); [lia|].
  exists c. split; [exact Hc|]. simpl.
  destruct (Ascii.eqb c "."); simpl; [|reflexivity].
  rewrite slice_to_in_range by lia. simpl.
  apply slice_from_in_range.
  pose proof (LastIndex_dot_range (take (Z.to_nat i) domain)) as R.
  unfold len in R at 1. rewrite length_take in R by (unfold len in *; lia).
  lia.
Qed.

(** With a suffix that follows a dot of the domain, [suffixPlusOne] adds
    the label before that dot. *)
Lemma suffixPlusOne_after_dot (p suffix : string) :
  suffixPlusOne (p ++ "." ++ suffix) suffix
  = Ret (last_label p ++ "." ++ suffix).
Proof.
  assert (L : len (p ++ "." ++ suffix) = len p + 1 + len suffix).
  { rewrite !len_app. change (len ".") with 1. lia. }
  destruct (suffixPlusOne_room (p ++ "." ++ suffix) suffix) as (c & Hc & ->).
  { pose proof (len_nonneg p). lia. }
  replace (Z.to_nat (len (p ++ "." ++ suffix) - len suffix - 1))
    with (String.length p) in * by (unfold len in *; lia).
  simpl in Hc. rewrite get_app_length in Hc. injection Hc as <-.
  rewrite take_app_length. simpl. f_equal.
  unfold last_label. apply (drop_app_le _ p ("." ++ suffix)).
  pose proof (LastIndex_dot_range p). unfold len in *. lia.
Qed.

Lemma suffixPlusOne_whole (domain : string) :
  suffixPlusOne domain domain = Ret "".
Proof.
  unfold suffixPlusOne.
  replace (len domain >=? len domain) with true
    by (symmetry; rewrite Z.geb_leb; apply Z.leb_le; lia).
  reflexivity.
Qed.

(** C6. [suffixPlusOne] is total: for every pair of strings it returns
    without a panic (each index and slice is in bounds), and what it
    returns is what the algorithm of the specification computes: empty
    when the suffix is not shorter than the domain, empty when the byte
    before the suffix is not a dot, and otherwise the domain from just
    after the last dot before that byte. *)
Theorem suffixPlusOne_total_follows_spec (domain suffix : string) :
  suffixPlusOne domain suffix
  = Ret (Decomposer.suffix_plus_one domain suffix).
Proof.
  unfold Decomposer.suffix_plus_one.
  destruct (Nat.leb (String.length domain) (String.length suffix)) eqn:E.
  - apply Nat.leb_le in E. unfold suffixPlusOne.
    replace (len suffix >=? len domain) with true
      by (symmetry; rewrite Z.geb_leb; apply Z.leb_le; unfold len; lia).
    reflexivity.
  - apply Nat.leb_gt in E.
    destruct (suffixPlusOne_room domain suffix) as (c & Hc & ->);
      [unfold len; lia|].
    replace (Z.to_nat (len domain - len suffix - 1))
      with (String.length domain - String.length suffix - 1)%nat in *
      by (unfold len; lia).
    rewrite Hc. destruct (Ascii.eqb c "."); [|reflexivity].
    rewrite LastIndex_dot.
    destruct (Decomposer.last_dot _) as [j|]; f_equal.
    replace (Z.to_nat (Z.of_nat j + 1)) with (S j) by lia. reflexivity.
Qed.

(** A string splits at its first dot in one way only. *)
Lemma first_dot_unique (a b c d : string) :
  count_dots a = O -> count_dots c = O ->
  a ++ "." ++ b = c ++ "." ++ d -> a = c /\ b = d.
Proof.
  revert c; induction a as [|x a IH]; intros [|y c]; simpl; intros Ha Hc E.
  - injection E as ->. now split.
  - injection E as <- _. discriminate.
  - injection E as -> _. discriminate.
  - injection E as -> E.
    destruct (Ascii.eqb y "."); [discriminate|].
    destruct (IH c Ha Hc E) as [-> ->]. now split.
Qed.

(** ** The peeling loop of [icannSuffix] *)

Section Peeling.

Variable PS : string -> string * bool.

(** The three ways an iteration of the loop goes. *)

Lemma icannSuffix_icann (fuel : nat) (domain eTLD : string) :
  PS domain = (eTLD, true) ->
  icannSuffix PS (S fuel) domain = Ret eTLD.
Proof. intros H. simpl. now rewrite H. Qed.

Lemma icannSuffix_peel (fuel : nat) (domain label rest : string) :
  PS domain = (label ++ "." ++ rest, false) ->
  count_dots label = O ->
  icannSuffix PS (S fuel) domain = icannSuffix PS fuel rest.
Proof.
  intros H Hl. simpl. rewrite H.
  assert (D : 0 <= strings.IndexByte (label ++ "." ++ rest) ".").
  { destruct (Z.lt_ge_cases (strings.IndexByte (label ++ "." ++ rest) ".") 0)
      as [N|N]; [|exact N].
    apply IndexByte_dot_count in N. rewrite count_dots_app in N.
    simpl in N. lia. }
  replace (strings.IndexByte (label ++ "." ++ rest) "." >=? 0) with true
    by (symmetry; rewrite Z.geb_leb; now apply Z.leb_le).
  destruct (Cut_dot _ D) as (l & r & -> & E & Hc). simpl.
  now destruct (first_dot_unique _ _ _ _ Hl Hc E) as [_ ->].
Qed.

Lemma icannSuffix_stay (fuel : nat) (domain eTLD : string) :
  PS domain = (eTLD, false) ->
  strings.IndexByte eTLD "." < 0 ->
  icannSuffix PS (S fuel) domain = icannSuffix PS fuel domain.
Proof.
  intros H N. simpl. rewrite H.
  replace (strings.IndexByte eTLD "." >=? 0) with false
    by (symmetry; rewrite Z.geb_leb; apply Z.leb_gt; lia).
  reflexivity.
Qed.

(** Every iteration is one of the three. *)
Lemma icannSuffix_step (domain : string) :
  (exists eTLD, PS domain = (eTLD, true))
  \/ (exists label rest,
        PS domain = (label ++ "." ++ rest, false) /\ count_dots label = O)
  \/ (exists eTLD,
        PS domain = (eTLD, false) /\ strings.IndexByte eTLD "." < 0).
Proof.
  destruct (PS domain) as [eTLD [|]] eqn:H.
  - left. now exists eTLD.
  - right.
    destruct (Z.lt_ge_cases (strings.IndexByte eTLD ".") 0) as [N|N].
    + right. now exists eTLD.
    + left. destruct (Cut_dot _ N) as (l & r & _ & -> & Hc). now exists l, r.
Qed.

(** A private match of a single label leaves the loop where it is: it
    never returns. *)
Lemma icannSuffix_stuck (domain eTLD : string) :
  PS domain = (eTLD, false) ->
  strings.IndexByte eTLD "." < 0 ->
  forall fuel, icannSuffix PS fuel domain = OutOfFuel.
Proof.
  intros H N fuel. induction fuel as [|fuel IH]; [reflexivity|].
  now rewrite (icannSuffix_stay _ _ _ H N).
Qed.

(** So does [registeredDomain], which calls the loop first. *)
Lemma registeredDomain_stuck (domain eTLD : string) :
  PS domain = (eTLD, false) ->
  strings.IndexByte eTLD "." < 0 ->
  forall fuel, registeredDomain PS fuel domain = OutOfFuel.
Proof.
  intros H N fuel. unfold registeredDomain.
  now rewrite (icannSuffix_stuck _ _ H N).
Qed.

(** The loop itself never panics. *)
Lemma icannSuffix_no_panic (fuel : nat) (domain : string) :
  icannSuffix PS fuel domain <> Panic.
Proof.
  revert domain; induction fuel as [|fuel IH]; intros domain; [discriminate|].
  destruct (icannSuffix_step domain)
    as [[e H]|[(l & r & H & Hl)|(e & H & N)]].
  - rewrite (icannSuffix_icann _ _ _ H). discriminate.
  - rewrite (icannSuffix_peel _ _ _ _ H Hl). apply IH.
  - rewrite (icannSuffix_stay _ _ _ H N). apply IH.
Qed.

Lemma icannSuffix_more_fuel (fuel extra : nat) (domain r : string) :
  icannSuffix PS fuel domain = Ret r ->
  icannSuffix PS (fuel + extra) domain = Ret r.
Proof.
  revert domain; induction fuel as [|fuel IH]; intros domain; [discriminate|].
  change (S fuel + extra)%nat with (S (fuel + extra)).
  destruct (icannSuffix_step domain)
    as [[e H]|[(l & r' & H & Hl)|(e & H & N)]].
  - now rewrite !(icannSuffix_icann _ _ _ H).
  - rewrite !(icannSuffix_peel _ _ _ _ H Hl). apply IH.
  - rewrite !(icannSuffix_stay _ _ _ H N). apply IH.
Qed.

(** What the loop returns is the suffix of an ICANN match: the
    [return ""] after [strings.Cut] is never reached. *)
Lemma icannSuffix_returns_icann_match (fuel : nat) (domain r : string) :
  icannSuffix PS fuel domain = Ret r ->
  exists probe, PS probe = (r, true).
Proof.
  revert domain; induction fuel as [|fuel IH]; intros domain; [discriminate|].
  destruct (icannSuffix_step domain)
    as [[e H]|[(l & r' & H & Hl)|(e & H & N)]].
  - rewrite (icannSuffix_icann _ _ _ H). intros [= <-]. now exists domain.
  - rewrite (icannSuffix_peel _ _ _ _ H Hl). apply IH.
  - rewrite (icannSuffix_stay _ _ _ H N). apply IH.
Qed.

(** The loop computes the peeling relation of the specification. *)
Lemma icannSuffix_peels (fuel : nat) (domain r : string) :
  icannSuffix PS fuel domain = Ret r -> Classifier.peels PS domain r.
Proof.
  revert domain; induction fuel as [|fuel IH]; intros domain; [discriminate|].
  destruct (icannSuffix_step domain)
    as [[e H]|[(l & r' & H & Hl)|(e & H & N)]].
  - rewrite (icannSuffix_icann _ _ _ H). intros [= <-].
    now apply Classifier.peels_icann.
  - rewrite (icannSuffix_peel _ _ _ _ H Hl). intros R.
    eapply Classifier.peels_private; eauto.
  - rewrite (icannSuffix_stuck _ _ H N). discriminate.
Qed.

Lemma peels_icannSuffix (domain r : string) :
  Classifier.peels PS domain r ->
  exists fuel, icannSuffix PS fuel domain = Ret r.
Proof.
  induction 1 as [probe matched H | probe matched label rest result H E Hl _ IH].
  - exists 1%nat. now apply icannSuffix_icann.
  - destruct IH as [fuel IH]. exists (S fuel). subst matched.
    now rewrite (icannSuffix_peel _ _ _ _ H Hl).
Qed.

End Peeling.

(** ** The loop over a lookup that reports suffixes *)

Lemma dot_suffix_single_label (e d : string) :
  dot_suffix e d -> count_dots d = O -> e = d.
Proof.
  intros [->|[p ->]] H; [reflexivity|].
  rewrite count_dots_app in H. simpl in H. lia.
Qed.

Lemma dot_suffix_after_label (label rest : string) :
  dot_suffix rest (label ++ "." ++ rest).
Proof. right. now exists label. Qed.

Section Contract.

Variable PS : string -> string * bool.
Hypothesis PS_suffix : reports_suffixes PS.

Lemma domain_suffix_dot_suffix (domain : string) :
  dot_suffix (domain_suffix PS domain) domain.
Proof.
  unfold domain_suffix. destruct (PS domain) as [e b] eqn:H.
  exact (PS_suffix _ _ _ H).
Qed.

(** Whatever the loop returns is a dot-delimited trailing substring of the
    suffix matched first. *)
Lemma icannSuffix_dot_suffix (fuel : nat) (domain r : string) :
  icannSuffix PS fuel domain = Ret r ->
  dot_suffix r (domain_suffix PS domain).
Proof.
  revert domain; induction fuel as [|fuel IH]; intros domain; [discriminate|].
  unfold domain_suffix.
  destruct (icannSuffix_step PS domain)
    as [[e H]|[(l & r' & H & Hl)|(e & H & N)]].
  - rewrite (icannSuffix_icann _ _ _ _ H), H. intros [= <-].
    apply dot_suffix_refl.
  - rewrite (icannSuffix_peel _ _ _ _ _ H Hl), H. intros R.
    apply IH in R.
    eapply dot_suffix_trans; [exact R|].
    eapply dot_suffix_trans; [apply domain_suffix_dot_suffix|].
    apply dot_suffix_after_label.
  - rewrite (icannSuffix_stuck _ _ _ H N). discriminate.
Qed.

(** The probe gets strictly shorter with every label peeled. *)
Lemma peel_shortens (domain label rest : string) :
  PS domain = (label ++ "." ++ rest, false) ->
  (String.length rest < String.length domain)%nat.
Proof.
  intros H. apply PS_suffix, dot_suffix_is_suffix, is_suffix_length in H.
  rewrite !length_app in H. simpl in H. lia.
Qed.

(** The loop either returns within [length domain + 1] iterations or
    never. *)
Lemma icannSuffix_returns_or_spins (n : nat) (domain : string) :
  (String.length domain <= n)%nat ->
  (exists r, icannSuffix PS (S n) domain = Ret r)
  \/ (forall fuel, icannSuffix PS fuel domain = OutOfFuel).
Proof.
  revert domain; induction n as [|n IH]; intros domain L;
    destruct (icannSuffix_step PS domain)
      as [[e H]|[(l & r & H & Hl)|(e & H & N)]].
  - left. exists e. now apply icannSuffix_icann.
  - apply peel_shortens in H. lia.
  - right. now apply (icannSuffix_stuck _ _ _ H N).
  - left. exists e. now apply icannSuffix_icann.
  - destruct (IH r) as [[x R]|R].
    + apply peel_shortens in H. lia.
    + left. exists x. now rewrite (icannSuffix_peel _ _ _ _ _ H Hl).
    + right. intros [|fuel]; [reflexivity|].
      now rewrite (icannSuffix_peel _ _ _ _ _ H Hl).
  - right. now apply (icannSuffix_stuck _ _ _ H N).
Qed.

(** [registeredDomain] on a domain whose ICANN suffix is not all of it:
    the suffix and the label before it. *)
Lemma registeredDomain_adds_label (fuel : nat) (domain ps : string) :
  icannSuffix PS fuel domain = Ret ps ->
  ps <> domain ->
  exists p,
    domain = p ++ "." ++ ps
    /\ registeredDomain PS fuel domain = Ret (last_label p ++ "." ++ ps).
Proof.
  intros R Hne. unfold registeredDomain. rewrite R. simpl.
  assert (D : dot_suffix ps domain).
  { eapply dot_suffix_trans; [exact (icannSuffix_dot_suffix _ _ _ R)|].
    apply domain_suffix_dot_suffix. }
  destruct D as [->|[p ->]]; [congruence|].
  exists p. split; [reflexivity | apply suffixPlusOne_after_dot].
Qed.

End Contract.

(** ** The rule database lookup *)

Lemma domain_labels_nonempty (d : string) : PSL.domain_labels d <> [].
Proof.
  intros H. pose proof (domain_labels_length d) as L. rewrite H in L.
  discriminate.
Qed.

Lemma join_domain_labels (d : string) :
  PSL.join_labels (PSL.domain_labels d) = d.
Proof.
  induction d as [|c d IH]; [reflexivity|].
  simpl PSL.domain_labels.
  destruct (Ascii.eqb c ".") eqn:E.
  - apply Ascii.eqb_eq in E as ->.
    pose proof (domain_labels_nonempty d) as N.
    destruct (PSL.domain_labels d) as [|l ls]; [congruence|].
    change (PSL.join_labels ("" :: l :: ls))
      with ("." ++ PSL.join_labels (l :: ls)).
    now rewrite IH.
  - pose proof (domain_labels_nonempty d) as N.
    destruct (PSL.domain_labels d) as [|l ls]; [congruence|].
    destruct ls as [|l' ls]; simpl in *; now rewrite <- IH.
Qed.

Lemma join_labels_app (a b : list string) :
  a <> [] -> b <> [] ->
  PSL.join_labels (a ++ b) = PSL.join_labels a ++ "." ++ PSL.join_labels b.
Proof.
  induction a as [|x a IH]; intros Ha Hb; [congruence|].
  destruct a as [|y a].
  - destruct b as [|z b]; [congruence | reflexivity].
  - change (PSL.join_labels ((x :: y :: a) ++ b))
      with (x ++ "." ++ PSL.join_labels ((y :: a) ++ b)).
    rewrite IH by (congruence || assumption).
    change (PSL.join_labels (x :: y :: a))
      with (x ++ "." ++ PSL.join_labels (y :: a)).
    now rewrite !append_assoc.
Qed.

(** One or more trailing labels of a domain, joined, are a dot-delimited
    trailing substring of it. *)
Lemma last_labels_dot_suffix (k : nat) (d : string) :
  (1 <= k)%nat ->
  dot_suffix (PSL.join_labels (PSL.last_labels k (PSL.domain_labels d))) d.
Proof.
  intros Hk. unfold PSL.last_labels.
  pose proof (domain_labels_length d) as L.
  pose proof (join_domain_labels d) as J.
  remember (PSL.domain_labels d) as ls eqn:E. clear E.
  remember (List.length ls - k)%nat as m eqn:Em.
  destruct m as [|m].
  - left. exact J.
  - right. exists (PSL.join_labels (firstn (S m) ls)).
    rewrite <- J at 1. rewrite <- (firstn_skipn (S m) ls) at 1.
    apply join_labels_app.
    + destruct ls; simpl; [simpl in L; lia | discriminate].
    + intros H. apply (f_equal (@List.length string)) in H.
      rewrite length_skipn in H. simpl in H. lia.
Qed.

Lemma scan_some (p : PSL.Rule -> bool) (db : PSL.RuleDatabase)
  (dom : list string) (L k : nat) (r : PSL.Rule) :
  PSL.scan p db dom L = Some (k, r) ->
  (1 <= k <= L)%nat /\ In r db /\ p r = true
  /\ PSL.rule_matches r k dom = true.
Proof.
  induction L as [|L IH]; simpl; [discriminate|].
  destruct (find _ db) as [r'|] eqn:F.
  - intros [= <- <-]. apply find_some in F as [I F].
    apply andb_true_iff in F as [P M]. repeat split; (lia || assumption).
  - intros H. apply IH in H as (K & I & P & M).
    repeat split; (lia || assumption).
Qed.

Lemma scan_none (p : PSL.Rule -> bool) (db : PSL.RuleDatabase)
  (dom : list string) (L : nat) :
  (forall r k, In r db -> PSL.rule_matches r k dom = false) ->
  PSL.scan p db dom L = None.
Proof.
  intros H. induction L as [|L IH]; simpl; [reflexivity|].
  destruct (find _ db) as [r|] eqn:F; [|exact IH].
  apply find_some in F as [I F]. apply andb_true_iff in F as [_ M].
  rewrite (H r (S L) I) in M. discriminate.
Qed.

Lemma lookup_count_positive (db : PSL.RuleDatabase) (dom : list string) :
  PSL.well_formed db = true ->
  (1 <= PSL.suffix_label_count (PSL.lookup db dom))%nat.
Proof.
  intros W. unfold PSL.lookup.
  destruct (PSL.scan PSL.is_exception db dom _) as [[k r]|] eqn:X.
  - apply scan_some in X as (_ & I & P & _). simpl.
    unfold PSL.well_formed in W. rewrite forallb_forall in W.
    specialize (W r I). rewrite P in W. simpl in W.
    destruct (List.length (PSL.labels r)) as [|[|n]];
      [discriminate | discriminate | lia].
  - clear X.
    destruct (PSL.scan _ db dom _) as [[k r]|] eqn:Y; simpl; [|lia].
    apply scan_some in Y. lia.
Qed.

(** Over a well-formed database the modelled lookup reports suffixes. *)
Lemma PublicSuffix_reports_suffixes (db : PSL.RuleDatabase) :
  PSL.well_formed db = true -> reports_suffixes (PSL.PublicSuffix db).
Proof.
  intros W domain eTLD icann. unfold PSL.PublicSuffix.
  destruct (String.eqb_spec domain "") as [->|N].
  - intros [= <- <-]. apply dot_suffix_refl.
  - intros [= <- <-]. apply last_labels_dot_suffix.
    now apply lookup_count_positive.
Qed.

Lemma domain_labels_single (d : string) :
  count_dots d = O -> PSL.domain_labels d = [d].
Proof.
  induction d as [|c d IH]; simpl; [reflexivity|].
  destruct (Ascii.eqb c "."); [discriminate|].
  intros H. now rewrite (IH H).
Qed.

(** No rule matches: the implicit default, one label under ICANN
    authority. *)
Lemma lookup_default (db : PSL.RuleDatabase) (dom : list string) :
  (forall r k, In r db -> PSL.rule_matches r k dom = false) ->
  PSL.lookup db dom
  = {| PSL.suffix_label_count := 1; PSL.match_authority := PSL.ICANN |}.
Proof.
  intros H. unfold PSL.lookup. now rewrite !scan_none.
Qed.

Lemma PublicSuffix_unlisted_single_label (db : PSL.RuleDatabase) (d : string) :
  d <> "" -> count_dots d = O ->
  (forall r k, In r db -> PSL.rule_matches r k [d] = false) ->
  PSL.PublicSuffix db d = (d, true).
Proof.
  intros N D U. unfold PSL.PublicSuffix.
  destruct (String.eqb_spec d "") as [E|_]; [congruence|].
  rewrite (domain_labels_single d D), (lookup_default db [d] U).
  reflexivity.
Qed.

Lemma sample_db_well_formed : PSL.well_formed PSL.sample_db = true.
Proof. reflexivity. Qed.

Lemma sample_reports_suffixes : reports_suffixes sample_PublicSuffix.
Proof. apply PublicSuffix_reports_suffixes, sample_db_well_formed. Qed.

(** ** Letter case *)

Lemma lower_byte_not_upper (c : ascii) :
  strings.is_upper c = false -> strings.lower_byte c = c.
Proof. intros H. unfold strings.lower_byte. now rewrite H. Qed.

Lemma ToLower_lower_case (s : string) :
  lower_case s = true -> strings.ToLower s = s.
Proof.
  induction s as [|c s IH]; simpl; [reflexivity|].
  intros H. apply andb_true_iff in H as [U L].
  apply negb_true_iff in U.
  now rewrite (lower_byte_not_upper c U), (IH L).
Qed.

(** A lookup that reports suffixes hands a single label back as it got it,
    upper case or lower case. *)
Lemma domain_suffix_single_label (PS : string -> string * bool)
  (domain : string) :
  reports_suffixes PS -> count_dots domain = O ->
  domain_suffix PS domain = domain.
Proof.
  intros C D. apply dot_suffix_single_label; [|exact D].
  now apply domain_suffix_dot_suffix.
Qed.

(** ** The properties of the specification *)

(** C1. For a domain whose longest match is private and spans more than one
    label, [public_suffix] is computed by iterative peeling: the leftmost
    label of the matched suffix (not of the domain) is removed and the
    lookup repeated on the rest, until an ICANN match is found, whose
    suffix is returned; the loop returns exactly the results of the
    peeling relation of the specification.  In particular, with the
    private rule [blogspot.com] and the ICANN rule [com], the outputs for
    [foo.blogspot.com] are: public_suffix "com", domain_suffix
    "blogspot.com", is_icann false, registered_domain "blogspot.com" and
    public_registered_domain "". *)
Theorem public_suffix_peels_private_match :
  (forall PS domain r,
      (exists fuel, public_suffix PS fuel domain = Ret r)
      <-> Classifier.peels PS domain r)
  /\ (forall PS domain label rest,
         PS domain = (label ++ "." ++ rest, false) ->
         count_dots label = O ->
         forall fuel,
           public_suffix PS (S fuel) domain = public_suffix PS fuel rest)
  /\ (forall PS,
         PS "foo.blogspot.com" = ("blogspot.com", false) ->
         PS "com" = ("com", true) ->
         forall fuel,
           public_suffix PS (S (S fuel)) "foo.blogspot.com" = Ret "com"
           /\ domain_suffix PS "foo.blogspot.com" = "blogspot.com"
           /\ is_icann PS "foo.blogspot.com" = false
           /\ registered_domain PS (S (S fuel)) "foo.blogspot.com"
              = Ret "blogspot.com"
           /\ public_registered_domain PS "foo.blogspot.com" = Ret "").
Proof.
  split; [|split].
  - intros PS domain r. unfold public_suffix. split.
    + intros [fuel H]. exact (icannSuffix_peels PS fuel domain r H).
    + apply peels_icannSuffix.
  - intros PS domain label rest H Hl fuel. unfold public_suffix.
    exact (icannSuffix_peel PS fuel domain label rest H Hl).
  - intros PS Hb Hc fuel.
    assert (P : icannSuffix PS (S (S fuel)) "foo.blogspot.com" = Ret "com").
    { rewrite (icannSuffix_peel PS _ _ "blogspot" "com" Hb eq_refl).
      now apply icannSuffix_icann. }
    unfold public_suffix, registered_domain, registeredDomain, domain_suffix,
      is_icann, public_registered_domain.
    rewrite P, Hb. repeat split; reflexivity.
Qed.

Lemma public_suffix_peels_private_match_witness :
  public_suffix sample_PublicSuffix 2 "foo.blogspot.com" = Ret "com"
  /\ registered_domain sample_PublicSuffix 2 "foo.blogspot.com"
     = Ret "blogspot.com".
Proof.
  destruct (proj2 (proj2 public_suffix_peels_private_match)
              sample_PublicSuffix eq_refl eq_refl O)
    as (P & _ & _ & R & _).
  split; [exact P | exact R].
Defined.

(** C2. The peeling loop does not terminate for every input: when the
    current match is not ICANN and the matched suffix is a single label
    (no dot in it), [icannSuffix] changes nothing and iterates again, so
    it never returns, whatever the number of iterations; it does not
    return the empty string. *)
Theorem public_suffix_spins_on_private_single_label
  (PS : string -> string * bool) (domain matched : string) :
  PS domain = (matched, false) ->
  count_dots matched = O ->
  forall fuel, public_suffix PS fuel domain = OutOfFuel.
Proof.
  intros H D fuel. unfold public_suffix.
  apply (icannSuffix_stuck PS domain matched H).
  now apply IndexByte_dot_count.
Qed.

Lemma public_suffix_spins_on_private_single_label_witness :
  sample_PublicSuffix "" = ("", false)
  /\ public_suffix sample_PublicSuffix 1000 "" = OutOfFuel.
Proof.
  split; [reflexivity|].
  apply (public_suffix_spins_on_private_single_label sample_PublicSuffix
           "" ""); reflexivity.
Defined.

(** C3. For a single-label domain that no rule of the database matches
    (such as [localhost]) the implicit default applies: the lookup reports
    ICANN authority, so is_icann is true, domain_suffix is the label
    itself, and registered_domain returns the empty string, there being no
    room for one more label. *)
Theorem unlisted_single_label_default
  (db : PSL.RuleDatabase) (domain : string) :
  domain <> "" ->
  count_dots domain = O ->
  (forall r k, In r db ->
               PSL.rule_matches r k (PSL.domain_labels domain) = false) ->
  is_icann (PSL.PublicSuffix db) domain = true
  /\ domain_suffix (PSL.PublicSuffix db) domain = domain
  /\ forall fuel,
       registered_domain (PSL.PublicSuffix db) (S fuel) domain = Ret "".
Proof.
  intros N D U. rewrite (domain_labels_single domain D) in U.
  pose proof (PublicSuffix_unlisted_single_label db domain N D U) as H.
  unfold is_icann, domain_suffix, registered_domain, registeredDomain.
  rewrite H. repeat split.
  intros fuel. rewrite (icannSuffix_icann _ fuel _ _ H). simpl.
  apply suffixPlusOne_whole.
Qed.

Lemma unlisted_single_label_default_witness :
  is_icann sample_PublicSuffix "localhost" = true
  /\ domain_suffix sample_PublicSuffix "localhost" = "localhost"
  /\ registered_domain sample_PublicSuffix 1 "localhost" = Ret "".
Proof.
  destruct (unlisted_single_label_default PSL.sample_db "localhost")
    as (Hi & Hs & Hr).
  - discriminate.
  - reflexivity.
  - intros r k H. simpl in H.
    repeat (destruct H as [<-|H];
            [destruct k as [|[|[|k]]]; reflexivity|]).
    destruct H.
  - split; [exact Hi | split; [exact Hs | exact (Hr O)]].
Defined.

(** C4, as stated, fails: the handler does not fold the case of the host.
    For the host [Example.COM] the placeholder [domain_suffix] yields
    "COM", for its lower-cased form "com". *)
Lemma host_case_is_not_folded :
  placeholder sample_PublicSuffix 1 (sample_request "Example.COM")
    "header.Host.domain_suffix" = Ret (Some (str "COM"))
  /\ placeholder sample_PublicSuffix 1
       (sample_request (strings.ToLower "Example.COM"))
       "header.Host.domain_suffix" = Ret (Some (str "com")).
Proof. split; reflexivity. Qed.

(** C5. [public_registered_domain] equals [registered_domain] when the
    longest match of the domain itself is ICANN, and is the empty string
    otherwise, whatever authority the peeling of [registered_domain]
    finds later; so it is non-empty only if [is_icann] is true. *)
Theorem public_registered_domain_gated_by_outer_match
  (PS : string -> string * bool) (domain : string) :
  (is_icann PS domain = true ->
   forall fuel,
     public_registered_domain PS domain
     = registered_domain PS (S fuel) domain)
  /\ (is_icann PS domain = false ->
      public_registered_domain PS domain = Ret "")
  /\ (forall s,
        public_registered_domain PS domain = Ret s -> s <> "" ->
        is_icann PS domain = true).
Proof.
  unfold is_icann, public_registered_domain, registered_domain,
    registeredDomain.
  destruct (PS domain) as [eTLD icann] eqn:H. repeat split.
  - intros -> fuel. now rewrite (icannSuffix_icann PS fuel _ _ H).
  - now intros ->.
  - intros s R N. destruct icann; [reflexivity|]. congruence.
Qed.

Lemma public_registered_domain_gated_by_outer_match_witness :
  public_registered_domain sample_PublicSuffix "sub.example.com"
  = registered_domain sample_PublicSuffix 1 "sub.example.com"
  /\ public_registered_domain sample_PublicSuffix "foo.blogspot.com"
     = Ret "".
Proof.
  split.
  - exact (proj1 (public_registered_domain_gated_by_outer_match
                    sample_PublicSuffix "sub.example.com") eq_refl O).
  - exact (proj1 (proj2 (public_registered_domain_gated_by_outer_match
                           sample_PublicSuffix "foo.blogspot.com")) eq_refl).
Defined.

Lemma hostDomain_empty : hostDomain "" = "".
Proof. reflexivity. Qed.

(** C7. For the empty host the handler does not yield empty outputs
    throughout: with the lookup answering the empty suffix and no ICANN
    authority, [domain_suffix] and [public_registered_domain] are empty
    and [is_icann] is false, but [public_suffix] and [registered_domain]
    never return: the loop of [icannSuffix] iterates forever. *)
Theorem empty_host_public_suffix_never_returns
  (PS : string -> string * bool) :
  PS "" = ("", false) ->
  hostDomain "" = ""
  /\ domain_suffix PS "" = ""
  /\ is_icann PS "" = false
  /\ public_registered_domain PS "" = Ret ""
  /\ forall fuel,
       public_suffix PS fuel "" = OutOfFuel
       /\ registered_domain PS fuel "" = OutOfFuel
       /\ output PS fuel "public_suffix" (hostDomain "") = OutOfFuel
       /\ output PS fuel "registered_domain" (hostDomain "") = OutOfFuel.
Proof.
  intros H.
  assert (S : forall fuel, icannSuffix PS fuel "" = OutOfFuel).
  { apply (icannSuffix_stuck PS "" "" H). simpl. lia. }
  unfold domain_suffix, is_icann, public_registered_domain. rewrite H.
  repeat split; try reflexivity;
    rewrite ?hostDomain_empty; unfold output; simpl;
    unfold public_suffix, registered_domain, registeredDomain;
    now rewrite S.
Qed.

Lemma empty_host_public_suffix_never_returns_witness :
  placeholder sample_PublicSuffix 1000 (sample_request "")
    "header.Host.public_suffix" = OutOfFuel
  /\ output sample_PublicSuffix 1000 "registered_domain" (hostDomain "")
     = OutOfFuel.
Proof.
  destruct (empty_host_public_suffix_never_returns sample_PublicSuffix
              eq_refl) as (_ & _ & _ & _ & H).
  destruct (H 1000%nat) as (_ & _ & P & R).
  split; [exact P | exact R].
Defined.

(** C8. Over a well-formed rule database, [domain_suffix] of a domain is a
    dot-delimited trailing substring of the domain, and every result of
    [public_suffix] is a trailing substring of that [domain_suffix], hence
    of the domain; [public_suffix] returns within [length domain + 1]
    iterations unless it never returns. *)
Theorem suffix_containment (db : PSL.RuleDatabase) (domain : string) :
  PSL.well_formed db = true ->
  dot_suffix (domain_suffix (PSL.PublicSuffix db) domain) domain
  /\ (forall fuel r,
        public_suffix (PSL.PublicSuffix db) fuel domain = Ret r ->
        is_suffix r (domain_suffix (PSL.PublicSuffix db) domain)
        /\ is_suffix r domain)
  /\ ((exists r,
         public_suffix (PSL.PublicSuffix db) (S (String.length domain))
           domain = Ret r)
      \/ (forall fuel,
            public_suffix (PSL.PublicSuffix db) fuel domain = OutOfFuel)).
Proof.
  intros W. pose proof (PublicSuffix_reports_suffixes db W) as C.
  pose proof (domain_suffix_dot_suffix _ C domain) as D.
  split; [exact D | split].
  - intros fuel r R. unfold public_suffix in R.
    apply (icannSuffix_dot_suffix _ C) in R.
    split; [now apply dot_suffix_is_suffix|].
    apply dot_suffix_is_suffix. eapply dot_suffix_trans; eassumption.
  - apply (icannSuffix_returns_or_spins _ C). lia.
Qed.

Lemma suffix_containment_witness :
  dot_suffix (domain_suffix sample_PublicSuffix "foo.blogspot.com")
    "foo.blogspot.com"
  /\ is_suffix "com" (domain_suffix sample_PublicSuffix "foo.blogspot.com").
Proof.
  destruct (suffix_containment PSL.sample_db "foo.blogspot.com" eq_refl)
    as (D & P & _).
  split; [exact D|].
  exact (proj1 (P 2%nat "com" eq_refl)).
Defined.

(** C9. For every domain whose [public_suffix] is non-empty and is not the
    whole domain, [registered_domain] has exactly one more dot-separated
    label than [public_suffix]. *)
Theorem registered_domain_one_more_label
  (PS : string -> string * bool) (fuel : nat) (domain ps : string) :
  reports_suffixes PS ->
  public_suffix PS fuel domain = Ret ps ->
  ps <> "" ->
  ps <> domain ->
  exists rd,
    registered_domain PS fuel domain = Ret rd
    /\ label_count rd = S (label_count ps).
Proof.
  intros C R _ N.
  destruct (registeredDomain_adds_label PS C fuel domain ps R N)
    as (p & _ & H).
  exists (last_label p ++ "." ++ ps). split; [exact H|].
  rewrite !label_count_dots, !count_dots_app, last_label_no_dot.
  reflexivity.
Qed.

Lemma registered_domain_one_more_label_witness :
  exists rd,
    registered_domain sample_PublicSuffix 1 "foo.bar.com.au" = Ret rd
    /\ label_count rd = S (label_count "com.au").
Proof.
  apply (registered_domain_one_more_label sample_PublicSuffix 1
           "foo.bar.com.au" "com.au").
  - exact sample_reports_suffixes.
  - reflexivity.
  - discriminate.
  - discriminate.
Defined.

(** C10. When the longest match of the domain itself is ICANN, the two
    ways to the registered domain agree: the peeling loop returns that
    match in its first iteration, so [registeredDomain] is [suffixPlusOne]
    of the unrestricted suffix, which is what the
    [public_registered_domain] case computes. *)
Theorem registered_domain_paths_agree_on_icann
  (PS : string -> string * bool) (domain : string) :
  is_icann PS domain = true ->
  forall fuel,
    icannSuffix PS (S fuel) domain = Ret (domain_suffix PS domain)
    /\ registeredDomain PS (S fuel) domain
       = suffixPlusOne domain (domain_suffix PS domain)
    /\ public_registered_domain PS domain
       = registeredDomain PS (S fuel) domain.
Proof.
  unfold is_icann, domain_suffix, public_registered_domain, registeredDomain.
  destruct (PS domain) as [eTLD icann] eqn:H. intros -> fuel.
  rewrite (icannSuffix_icann PS fuel _ _ H). repeat split.
Qed.

Lemma registered_domain_paths_agree_on_icann_witness :
  registeredDomain sample_PublicSuffix 1 "sub.example.com"
  = suffixPlusOne "sub.example.com"
      (domain_suffix sample_PublicSuffix "sub.example.com").
Proof.
  exact (proj1 (proj2 (registered_domain_paths_agree_on_icann
                         sample_PublicSuffix "sub.example.com" eq_refl O))).
Defined.

(** * Further properties of the handler *)

(** ** Strings: more on slices, bytes and splitting *)

Lemma drop_app_length (p q : string) : drop (String.length p) (p ++ q) = q.
Proof. induction p as [|c p IH]; simpl; [reflexivity | exact IH]. Qed.

Lemma get_split (n : nat) (s : string) (c : ascii) :
  String.get n s = Some c -> s = take n s ++ String c (drop (S n) s).
Proof.
  revert n; induction s as [|x s IH]; simpl; intros n H; [discriminate|].
  destruct n as [|n]; simpl.
  - injection H as ->. reflexivity.
  - f_equal. apply IH in H. exact H.
Qed.

Lemma length_drop (n : nat) (s : string) :
  String.length (drop n s) = (String.length s - n)%nat.
Proof.
  revert s; induction n as [|n IH]; intros [|c s]; simpl; try reflexivity.
  apply IH.
Qed.

Lemma dot_suffix_app (a b x : string) :
  dot_suffix a b -> dot_suffix (a ++ x) (b ++ x).
Proof.
  intros [->|[p ->]]; [now left | right].
  exists p. now rewrite !append_assoc.
Qed.

Lemma dot_suffix_count_dots (e d : string) :
  dot_suffix e d -> (count_dots e <= count_dots d)%nat.
Proof.
  intros [->|[p ->]]; [lia|]. rewrite !count_dots_app. lia.
Qed.

Lemma last_dot_split (s : string) (j : nat) :
  Decomposer.last_dot s = Some j -> s = take j s ++ "." ++ drop (S j) s.
Proof.
  revert j; induction s as [|a s IH]; simpl; intros j H; [discriminate|].
  destruct (Decomposer.last_dot s) as [k|] eqn:E.
  - injection H as <-. simpl. f_equal. now apply IH.
  - destruct (Ascii.eqb a ".") eqn:A; [|discriminate].
    injection H as <-. apply Ascii.eqb_eq in A as ->. reflexivity.
Qed.

Lemma last_label_dot_suffix (p : string) : dot_suffix (last_label p) p.
Proof.
  unfold last_label. rewrite LastIndex_dot.
  destruct (Decomposer.last_dot p) as [j|] eqn:E.
  - replace (Z.to_nat (Z.of_nat j + 1)) with (S j) by lia.
    right. exists (take j p). now apply last_dot_split.
  - now left.
Qed.

Lemma last_label_single (p : string) : count_dots p = O -> last_label p = p.
Proof.
  intros H. apply dot_suffix_single_label; [|exact H].
  apply last_label_dot_suffix.
Qed.

Lemma has_byte_app (c : ascii) (a b : string) :
  has_byte c (a ++ b) = has_byte c a || has_byte c b.
Proof.
  induction a as [|x a IH]; simpl; [reflexivity|].
  now rewrite IH, orb_assoc.
Qed.

Lemma IndexByte_has_byte (s : string) (c : ascii) :
  has_byte c s = false <-> strings.IndexByte s c < 0.
Proof.
  induction s as [|a s IH]; simpl.
  - split; [lia | reflexivity].
  - destruct (Ascii.eqb a c); simpl; [split; [discriminate | lia]|].
    destruct (strings.IndexByte s c <? 0) eqn:E.
    + apply Z.ltb_lt in E. split; [lia | intros _; now apply IH].
    + apply Z.ltb_ge in E. split; [intros H; apply IH in H; lia | lia].
Qed.

Lemma LastIndexByte_has_byte (s : string) (c : ascii) :
  has_byte c s = false -> strings.LastIndexByte s c = -1.
Proof.
  induction s as [|a s IH]; simpl; [reflexivity|].
  intros H. apply orb_false_iff in H as [A B].
  now rewrite (IH B), A.
Qed.

Lemma LastIndexByte_last (a : string) (c : ascii) (b : string) :
  has_byte c b = false ->
  strings.LastIndexByte (a ++ String c b) c = len a.
Proof.
  intros H. induction a as [|x a IH]; simpl.
  - rewrite (LastIndexByte_has_byte b c H). simpl.
    now rewrite Ascii.eqb_refl.
  - rewrite IH.
    replace (0 <=? len a) with true
      by (symmetry; apply Z.leb_le; apply len_nonneg).
    unfold len. simpl String.length. lia.
Qed.

Lemma has_byte_dot (s : string) : has_byte "." s = false <-> count_dots s = O.
Proof.
  rewrite IndexByte_has_byte. apply IndexByte_dot_count.
Qed.

(** [strings.Split(s, ".")] yields the dot-separated labels of [s]. *)
Lemma domain_labels_cons (label rest : string) :
  count_dots label = O ->
  PSL.domain_labels (label ++ "." ++ rest) = label :: PSL.domain_labels rest.
Proof.
  induction label as [|c label IH]; simpl in *; [reflexivity|].
  destruct (Ascii.eqb c "."); [discriminate|].
  intros H. now rewrite (IH H).
Qed.

Lemma Split_rounds_labels (n : nat) (s : string) :
  (String.length s <= n)%nat ->
  strings.Split_rounds n s "." = PSL.domain_labels s.
Proof.
  revert s; induction n as [|n IH]; intros s L.
  - destruct s; [reflexivity | simpl in L; lia].
  - simpl.
    destruct (Z.lt_ge_cases (strings.IndexByte s ".") 0) as [N|N].
    + rewrite (Cut_no_dot s N). symmetry. apply domain_labels_single.
      now apply IndexByte_dot_count.
    + destruct (Cut_dot s N) as (label & rest & -> & E & D).
      subst s. rewrite domain_labels_cons by exact D. simpl. f_equal.
      apply IH. rewrite !length_app in L. simpl in L. lia.
Qed.

Lemma Split_dot_labels (s : string) :
  strings.Split s "." = PSL.domain_labels s.
Proof. apply Split_rounds_labels. lia. Qed.

Lemma HasSuffix_app (x suffix : string) :
  strings.HasSuffix (x ++ suffix) suffix = true.
Proof.
  unfold strings.HasSuffix. rewrite len_app.
  replace (len x + len suffix >=? len suffix) with true
    by (symmetry; rewrite Z.geb_leb; apply Z.leb_le;
        pose proof (len_nonneg x); lia).
  replace (Z.to_nat (len x + len suffix - len suffix))
    with (String.length x) by (unfold len; lia).
  rewrite drop_app_length. apply String.eqb_refl.
Qed.

(** ** The placeholder key *)

Lemma lower_byte_dot (c : ascii) :
  Ascii.eqb (strings.lower_byte c) "." = Ascii.eqb c ".".
Proof. destruct c as [[] [] [] [] [] [] [] []]; reflexivity. Qed.

Lemma ToLower_count_dots (s : string) :
  count_dots (strings.ToLower s) = count_dots s.
Proof.
  induction s as [|c s IH]; simpl; [reflexivity|].
  now rewrite lower_byte_dot, IH.
Qed.

Lemma endings_no_dot (e : string) : In e endings -> count_dots e = O.
Proof.
  simpl. intros [<-|[<-|[<-|[<-|[<-|[]]]]]]; reflexivity.
Qed.

Lemma output_unknown_ending (PS : string -> string * bool) (fuel : nat)
  (ending domain : string) :
  ~ In ending endings -> output PS fuel ending domain = Ret None.
Proof.
  intros H. unfold output.
  repeat match goal with
         | |- context [String.eqb ending ?e] =>
             destruct (String.eqb_spec ending e) as [->|_];
             [exfalso; apply H; simpl; tauto|]
         end.
  reflexivity.
Qed.

(** A key that ends with one of the endings and has at least three parts
    is resolved from its first three parts. *)
Lemma placeholder_resolves (PS : string -> string * bool) (fuel : nat)
  (r : Request) (key e p0 p1 p2 : string) (more : list string) :
  In e endings ->
  strings.HasSuffix key ("." ++ e) = true ->
  strings.Split key "." = p0 :: p1 :: p2 :: more ->
  placeholder PS fuel r key =
  match inputHost r p0 p1 with
  | None => Ret None
  | Some host => output PS fuel p2 (hostDomain host)
  end.
Proof.
  intros He Hs Hp. unfold placeholder. rewrite Hp.
  replace (Z.of_nat (List.length (p0 :: p1 :: p2 :: more)) <? 3) with false
    by (symmetry; apply Z.ltb_ge; simpl List.length; lia).
  simpl in He.
  destruct He as [<-|[<-|[<-|[<-|[<-|[]]]]]]; simpl in Hs; rewrite Hs;
    simpl; rewrite ?andb_false_r; reflexivity.
Qed.

Lemma three_parts (p0 p1 p2 : string) :
  count_dots p0 = O -> count_dots p1 = O -> count_dots p2 = O ->
  strings.Split (p0 ++ "." ++ p1 ++ "." ++ p2) "." = [p0; p1; p2].
Proof.
  intros H0 H1 H2.
  now rewrite Split_dot_labels, !domain_labels_cons, domain_labels_single.
Qed.

Lemma three_parts_and_more (p0 p1 p2 rest : string) :
  count_dots p0 = O -> count_dots p1 = O -> count_dots p2 = O ->
  strings.Split (p0 ++ "." ++ p1 ++ "." ++ p2 ++ "." ++ rest) "."
  = p0 :: p1 :: p2 :: PSL.domain_labels rest.
Proof.
  intros H0 H1 H2. now rewrite Split_dot_labels, !domain_labels_cons.
Qed.

Lemma HasSuffix_third_part (p0 p1 p2 : string) :
  strings.HasSuffix (p0 ++ "." ++ p1 ++ "." ++ p2) ("." ++ p2) = true.
Proof.
  replace (p0 ++ "." ++ p1 ++ "." ++ p2)
    with ((p0 ++ "." ++ p1) ++ "." ++ p2) by now rewrite !append_assoc.
  apply HasSuffix_app.
Qed.

(** X1. A key of exactly three dot-separated parts
    [prefix.name.ending], with one of the five endings, is resolved: the
    prefix and the name select the input host ([nil, false] for a prefix
    other than [qs] and [header]), and the ending selects the output
    computed from that host with its port stripped. *)
Theorem placeholder_three_part_key (PS : string -> string * bool)
  (fuel : nat) (r : Request) (p0 p1 ending : string) :
  count_dots p0 = O ->
  count_dots p1 = O ->
  In ending endings ->
  placeholder PS fuel r (p0 ++ "." ++ p1 ++ "." ++ ending) =
  match inputHost r p0 p1 with
  | None => Ret None
  | Some host => output PS fuel ending (hostDomain host)
  end.
Proof.
  intros H0 H1 He.
  apply (placeholder_resolves PS fuel r _ ending p0 p1 ending []).
  - exact He.
  - apply HasSuffix_third_part.
  - apply three_parts; [exact H0 | exact H1 | now apply endings_no_dot].
Qed.

Lemma placeholder_three_part_key_witness :
  placeholder sample_PublicSuffix 1 (sample_request "sub.example.com")
    ("header" ++ "." ++ "Host" ++ "." ++ "domain_suffix")
  = output sample_PublicSuffix 1 "domain_suffix"
      (hostDomain "sub.example.com").
Proof.
  apply (placeholder_three_part_key sample_PublicSuffix 1
           (sample_request "sub.example.com") "header" "Host"
           "domain_suffix").
  - reflexivity.
  - reflexivity.
  - simpl. tauto.
Defined.

(** X2. The output is chosen by the third part of the key, not by its
    last: a key whose third part is not one of the five endings yields
    [nil, false], even when the key ends with an ending.  So an input name
    that holds a dot (a header [X.Y], a query parameter [a.b]) cannot be
    addressed. *)
Theorem placeholder_third_part_decides (PS : string -> string * bool)
  (fuel : nat) (r : Request) (p0 p1 p2 rest : string) :
  count_dots p0 = O ->
  count_dots p1 = O ->
  count_dots p2 = O ->
  ~ In p2 endings ->
  placeholder PS fuel r (p0 ++ "." ++ p1 ++ "." ++ p2 ++ "." ++ rest)
  = Ret None.
Proof.
  intros H0 H1 H2 Hn. unfold placeholder.
  match goal with |- (if ?g then _ else _) = _ => destruct g end;
    [reflexivity|].
  rewrite (three_parts_and_more p0 p1 p2 rest H0 H1 H2).
  replace (Z.of_nat (List.length (p0 :: p1 :: p2 :: PSL.domain_labels rest))
           <? 3) with false
    by (symmetry; apply Z.ltb_ge; simpl List.length; lia).
  cbn [part_at nth_error bind]. destruct (inputHost r p0 p1); [|reflexivity].
  cbn [bind].
  now apply output_unknown_ending.
Qed.

Lemma placeholder_third_part_decides_witness :
  placeholder sample_PublicSuffix 1 (sample_request "example.com")
    ("qs" ++ "." ++ "a" ++ "." ++ "b" ++ "." ++ "is_icann") = Ret None.
Proof.
  apply (placeholder_third_part_decides sample_PublicSuffix 1
           (sample_request "example.com") "qs" "a" "b" "is_icann");
    try reflexivity.
  simpl. intros [H|[H|[H|[H|[H|[]]]]]]; discriminate H.
Defined.

(** X3. A key with fewer than three dot-separated parts (fewer than two
    dots) yields [nil, false], whatever it ends with: the handler returns
    before it reads [parts[0]], [parts[1]] or [parts[2]]. *)
Theorem placeholder_short_key (PS : string -> string * bool) (fuel : nat)
  (r : Request) (key : string) :
  (count_dots key < 2)%nat ->
  placeholder PS fuel r key = Ret None.
Proof.
  intros H. unfold placeholder.
  match goal with |- (if ?g then _ else _) = _ => destruct g end;
    [reflexivity|].
  rewrite Split_dot_labels, domain_labels_length.
  replace (Z.of_nat (S (count_dots key)) <? 3) with true
    by (symmetry; apply Z.ltb_lt; lia).
  reflexivity.
Qed.

Lemma placeholder_short_key_witness :
  placeholder sample_PublicSuffix 1 (sample_request "example.com")
    "qs.is_icann" = Ret None.
Proof.
  apply (placeholder_short_key sample_PublicSuffix 1
           (sample_request "example.com") "qs.is_icann").
  simpl. lia.
Defined.

(** X4. Parts after the third are ignored: when the third part of a key is
    an ending and the key as a whole still ends with an ending, the key is
    resolved as its first three parts alone. *)
Theorem placeholder_ignores_parts_after_third
  (PS : string -> string * bool) (fuel : nat) (r : Request)
  (p0 p1 p2 rest last : string) :
  count_dots p0 = O ->
  count_dots p1 = O ->
  In p2 endings ->
  In last endings ->
  strings.HasSuffix (p0 ++ "." ++ p1 ++ "." ++ p2 ++ "." ++ rest)
    ("." ++ last) = true ->
  placeholder PS fuel r (p0 ++ "." ++ p1 ++ "." ++ p2 ++ "." ++ rest)
  = placeholder PS fuel r (p0 ++ "." ++ p1 ++ "." ++ p2).
Proof.
  intros H0 H1 H2 Hl Hs.
  pose proof (endings_no_dot p2 H2) as D2.
  rewrite (placeholder_resolves PS fuel r _ last p0 p1 p2
             (PSL.domain_labels rest) Hl Hs
             (three_parts_and_more p0 p1 p2 rest H0 H1 D2)).
  rewrite (placeholder_resolves PS fuel r _ p2 p0 p1 p2 [] H2
             (HasSuffix_third_part p0 p1 p2) (three_parts p0 p1 p2 H0 H1 D2)).
  reflexivity.
Qed.

Lemma placeholder_ignores_parts_after_third_witness :
  placeholder sample_PublicSuffix 1 (sample_request "foo.blogspot.com")
    ("header" ++ "." ++ "Host" ++ "." ++ "is_icann" ++ "."
     ++ "domain_suffix")
  = placeholder sample_PublicSuffix 1 (sample_request "foo.blogspot.com")
      ("header" ++ "." ++ "Host" ++ "." ++ "is_icann").
Proof.
  apply (placeholder_ignores_parts_after_third sample_PublicSuffix 1
           (sample_request "foo.blogspot.com") "header" "Host" "is_icann"
           "domain_suffix" "domain_suffix");
    try reflexivity; simpl; tauto.
Defined.

(** X5. The name [Host] after the prefix [header] is matched without
    regard to letter case, and then the input is the request's [Host]
    field, whatever the header map and the query hold. *)
Theorem header_host_reads_request_host (PS : string -> string * bool)
  (fuel : nat) (r : Request) (name ending : string) :
  strings.ToLower name = "host" ->
  In ending endings ->
  placeholder PS fuel r ("header" ++ "." ++ name ++ "." ++ ending)
  = output PS fuel ending (hostDomain (Host r)).
Proof.
  intros Hn He.
  assert (D : count_dots name = O).
  { rewrite <- ToLower_count_dots, Hn. reflexivity. }
  rewrite (placeholder_resolves PS fuel r _ ending "header" name ending []
             He (HasSuffix_third_part "header" name ending)
             (three_parts "header" name ending eq_refl D
                (endings_no_dot ending He))).
  unfold inputHost. simpl String.eqb. now rewrite Hn.
Qed.

Lemma header_host_reads_request_host_witness :
  placeholder sample_PublicSuffix 1
    {| URL_Query_Get := fun _ => "query.example.org";
       Host := "sub.example.com";
       Header_Get := fun _ => "header.example.net" |}
    ("header" ++ "." ++ "HOST" ++ "." ++ "registered_domain")
  = output sample_PublicSuffix 1 "registered_domain"
      (hostDomain "sub.example.com").
Proof.
  apply (header_host_reads_request_host sample_PublicSuffix 1
           {| URL_Query_Get := fun _ => "query.example.org";
              Host := "sub.example.com";
              Header_Get := fun _ => "header.example.net" |}
           "HOST" "registered_domain").
  - reflexivity.
  - simpl. tauto.
Defined.

(** ** The port of a host *)

(** [SplitHostPort] on an address that does not begin with a bracket. *)
Lemma SplitHostPort_unbracketed (hostport : string) :
  strings.HasPrefix hostport "[" = false ->
  net.SplitHostPort hostport =
  let i := strings.LastIndexByte hostport ":" in
  if i <? 0 then None
  else
    let host := take (Z.to_nat i) hostport in
    if 0 <=? strings.IndexByte host ":" then None
    else if 0 <=? strings.IndexByte hostport "[" then None
    else if 0 <=? strings.IndexByte hostport "]" then None
    else Some (host, drop (Z.to_nat (i + 1)) hostport).
Proof.
  unfold net.SplitHostPort. destruct hostport as [|a s]; [reflexivity|].
  destruct a as [[] [] [] [] [] [] [] []]; intros H;
    try reflexivity.
  simpl in H. rewrite HasPrefix_empty in H. discriminate H.
Qed.

Lemma plain_parts (s : string) :
  plain s = true ->
  has_byte ":" s = false /\ has_byte "[" s = false /\ has_byte "]" s = false.
Proof.
  unfold plain. intros H.
  apply andb_true_iff in H as [H C]. apply andb_true_iff in H as [A B].
  now rewrite negb_true_iff in A, B, C.
Qed.

Lemma not_found (s : string) (c : ascii) :
  has_byte c s = false -> (0 <=? strings.IndexByte s c) = false.
Proof. intros H. apply IndexByte_has_byte in H. apply Z.leb_gt. lia. Qed.

Lemma SplitHostPort_plain (host port : string) :
  plain host = true -> plain port = true ->
  net.SplitHostPort (host ++ ":" ++ port) = Some (host, port).
Proof.
  intros Hh Hp.
  destruct (plain_parts host Hh) as (Hc & Hl & Hr).
  destruct (plain_parts port Hp) as (Pc & Pl & Pr).
  rewrite SplitHostPort_unbracketed.
  - change (host ++ ":" ++ port) with (host ++ String ":" port).
    rewrite (LastIndexByte_last host ":" port Pc). cbv zeta.
    replace (len host <? 0) with false
      by (symmetry; apply Z.ltb_ge; apply len_nonneg).
    replace (Z.to_nat (len host)) with (String.length host)
      by (unfold len; lia).
    rewrite take_app_length, (not_found host ":" Hc).
    rewrite !not_found
      by (rewrite has_byte_app; simpl; rewrite ?Hl, ?Hr, ?Pl, ?Pr;
          reflexivity).
    do 2 f_equal.
    replace (Z.to_nat (len host + 1)) with (S (String.length host))
      by (unfold len; lia).
    clear. induction host as [|x host IH]; simpl; [reflexivity | exact IH].
  - destruct host as [|a host]; [reflexivity|]. simpl in *.
    apply orb_false_iff in Hl as [-> _]. reflexivity.
Qed.

Lemma SplitHostPort_no_colon (s : string) :
  has_byte ":" s = false -> net.SplitHostPort s = None.
Proof.
  intros H. unfold net.SplitHostPort.
  now rewrite (LastIndexByte_has_byte s ":" H).
Qed.

(** X6. Ports are ignored: for a host and a port without colon and
    brackets, the domain taken from [host:port] is [host], the same as
    from [host] alone, so every output is the same with and without the
    port. *)
Theorem port_is_ignored (PS : string -> string * bool) (fuel : nat)
  (ending host port : string) :
  plain host = true ->
  plain port = true ->
  hostDomain (host ++ ":" ++ port) = host
  /\ hostDomain host = host
  /\ output PS fuel ending (hostDomain (host ++ ":" ++ port))
     = output PS fuel ending (hostDomain host).
Proof.
  intros Hh Hp.
  assert (A : hostDomain (host ++ ":" ++ port) = host).
  { unfold hostDomain. now rewrite (SplitHostPort_plain host port Hh Hp). }
  assert (B : hostDomain host = host).
  { unfold hostDomain.
    now rewrite (SplitHostPort_no_colon host (proj1 (plain_parts host Hh))). }
  rewrite A, B. repeat split.
Qed.

Lemma port_is_ignored_witness :
  hostDomain ("example.com" ++ ":" ++ "8080") = "example.com"
  /\ hostDomain "example.com" = "example.com".
Proof.
  destruct (port_is_ignored sample_PublicSuffix 1 "registered_domain"
              "example.com" "8080" eq_refl eq_refl) as (A & B & _).
  split; [exact A | exact B].
Defined.

(** ** More on [suffixPlusOne] *)

(** [suffixPlusOne] reads the length of the suffix only. *)
Lemma suffixPlusOne_by_length (domain s1 s2 : string) :
  String.length s1 = String.length s2 ->
  suffixPlusOne domain s1 = suffixPlusOne domain s2.
Proof.
  intros H. unfold suffixPlusOne, len. now rewrite H.
Qed.

(** A non-empty result: the domain splits at the dot before its last
    [len(suffix)] bytes, and the result is the label before that dot, the
    dot, and those bytes. *)
Lemma suffixPlusOne_nonempty (domain suffix r : string) :
  suffixPlusOne domain suffix = Ret r ->
  r <> "" ->
  exists p t,
    domain = p ++ "." ++ t
    /\ String.length t = String.length suffix
    /\ r = last_label p ++ "." ++ t.
Proof.
  intros R N.
  destruct (Z.lt_ge_cases (len suffix) (len domain)) as [L|L].
  - destruct (suffixPlusOne_room domain suffix L) as (c & Hc & E).
    destruct (Ascii.eqb c ".") eqn:C; [|congruence].
    apply Ascii.eqb_eq in C as ->.
    apply get_split in Hc. clear E.
    assert (T : String.length
                  (drop (S (Z.to_nat (len domain - len suffix - 1))) domain)
                = String.length suffix).
    { rewrite length_drop. unfold len in *. lia. }
    revert Hc T.
    generalize (take (Z.to_nat (len domain - len suffix - 1)) domain),
      (drop (S (Z.to_nat (len domain - len suffix - 1))) domain).
    intros p t Hc T. exists p, t.
    change (domain = p ++ "." ++ t) in Hc.
    split; [exact Hc | split; [exact T|]].
    rewrite (suffixPlusOne_by_length domain suffix t (eq_sym T)) in R.
    subst domain. rewrite suffixPlusOne_after_dot in R.
    now injection R as <-.
  - unfold suffixPlusOne in R.
    replace (len suffix >=? len domain) with true in R
      by (symmetry; rewrite Z.geb_leb; apply Z.leb_le; lia).
    congruence.
Qed.

(** X7. What [suffixPlusOne] returns, when it is not empty, is a
    dot-delimited trailing substring of the domain: one label without a
    dot, a dot, and the last [len(suffix)] bytes of the domain.  The
    bytes of the suffix are not compared with the domain; two suffixes of
    the same length give the same result. *)
Theorem suffixPlusOne_result_shape (domain suffix r : string) :
  suffixPlusOne domain suffix = Ret r ->
  r <> "" ->
  dot_suffix r domain
  /\ (exists label t,
        r = label ++ "." ++ t
        /\ count_dots label = O
        /\ String.length t = String.length suffix
        /\ is_suffix t domain)
  /\ (forall other,
        String.length other = String.length suffix ->
        suffixPlusOne domain other = Ret r).
Proof.
  intros R N.
  destruct (suffixPlusOne_nonempty domain suffix r R N) as (p & t & D & T & E).
  split; [|split].
  - subst r domain. apply dot_suffix_app, last_label_dot_suffix.
  - exists (last_label p), t. repeat split; try assumption.
    + apply last_label_no_dot.
    + subst domain. exists (p ++ "."). now rewrite append_assoc.
  - intros other H. now rewrite (suffixPlusOne_by_length domain other suffix H).
Qed.

Lemma suffixPlusOne_result_shape_witness :
  dot_suffix "example.com" "sub.example.com"
  /\ suffixPlusOne "sub.example.com" "org" = Ret "example.com".
Proof.
  destruct (suffixPlusOne_result_shape "sub.example.com" "com" "example.com"
              eq_refl) as (D & _ & L).
  - discriminate.
  - split; [exact D | exact (L "org" eq_refl)].
Defined.

(** X8. [suffixPlusOne] is idempotent in the domain: applied to its own
    non-empty result, with the same suffix, it returns that result
    again. *)
Theorem suffixPlusOne_idempotent (domain suffix r : string) :
  suffixPlusOne domain suffix = Ret r ->
  r <> "" ->
  suffixPlusOne r suffix = Ret r.
Proof.
  intros R N.
  destruct (suffixPlusOne_nonempty domain suffix r R N) as (p & t & D & T & E).
  rewrite (suffixPlusOne_by_length r suffix t (eq_sym T)). subst r.
  rewrite suffixPlusOne_after_dot.
  now rewrite (last_label_single _ (last_label_no_dot p)).
Qed.

Lemma suffixPlusOne_idempotent_witness :
  suffixPlusOne "example.co.uk" "co.uk" = Ret "example.co.uk".
Proof.
  apply (suffixPlusOne_idempotent "www.sub.example.co.uk" "co.uk").
  - reflexivity.
  - discriminate.
Defined.

(** ** More on the loop and on [registeredDomain] *)

Section Results.

Variable PS : string -> string * bool.
Hypothesis PS_suffix : reports_suffixes PS.

(** The probe the loop returns from. *)
Lemma icannSuffix_final_probe (fuel : nat) (domain r : string) :
  icannSuffix PS fuel domain = Ret r ->
  exists probe, dot_suffix probe domain /\ PS probe = (r, true).
Proof.
  revert domain; induction fuel as [|fuel IH]; intros domain; [discriminate|].
  destruct (icannSuffix_step PS domain)
    as [[e H]|[(l & r' & H & Hl)|(e & H & N)]].
  - rewrite (icannSuffix_icann _ _ _ _ H). intros [= <-].
    exists domain. split; [apply dot_suffix_refl | exact H].
  - rewrite (icannSuffix_peel _ _ _ _ _ H Hl). intros R.
    destruct (IH _ R) as (probe & D & P). exists probe. split; [|exact P].
    eapply dot_suffix_trans; [exact D|].
    eapply dot_suffix_trans; [apply dot_suffix_after_label|].
    exact (PS_suffix _ _ _ H).
  - rewrite (icannSuffix_stuck _ _ _ H N). discriminate.
Qed.

(** One lookup per label is enough. *)
Lemma icannSuffix_within_labels (fuel : nat) (domain r : string) :
  icannSuffix PS fuel domain = Ret r ->
  icannSuffix PS (S (count_dots domain)) domain = Ret r.
Proof.
  revert domain; induction fuel as [|fuel IH]; intros domain; [discriminate|].
  destruct (icannSuffix_step PS domain)
    as [[e H]|[(l & r' & H & Hl)|(e & H & N)]].
  - now rewrite !(icannSuffix_icann _ _ _ _ H).
  - rewrite (icannSuffix_peel _ _ _ _ _ H Hl). intros R. apply IH in R.
    pose proof (dot_suffix_count_dots _ _ (PS_suffix _ _ _ H)) as C.
    rewrite !count_dots_app in C. simpl in C.
    replace (count_dots domain)
      with (S (count_dots r') + (count_dots domain - S (count_dots r')))%nat
      by lia.
    rewrite (icannSuffix_peel _ _ _ _ _ H Hl).
    now apply icannSuffix_more_fuel.
  - rewrite (icannSuffix_stuck _ _ _ H N). discriminate.
Qed.

End Results.

(** X9. Whatever [icannSuffix] returns is the suffix the lookup reported
    under ICANN authority for the domain or for a dot-delimited trailing
    substring of it; the empty string of the [return ""] after
    [strings.Cut] and the suffix of a private match are never
    returned. *)
Theorem icannSuffix_returns_only_icann_matches
  (PS : string -> string * bool) (fuel : nat) (domain r : string) :
  reports_suffixes PS ->
  icannSuffix PS fuel domain = Ret r ->
  exists probe, dot_suffix probe domain /\ PS probe = (r, true).
Proof. intros C R. exact (icannSuffix_final_probe PS C fuel domain r R). Qed.

Lemma icannSuffix_returns_only_icann_matches_witness :
  exists probe,
    dot_suffix probe "foo.blogspot.com"
    /\ sample_PublicSuffix probe = ("com", true).
Proof.
  apply (icannSuffix_returns_only_icann_matches sample_PublicSuffix 2
           "foo.blogspot.com" "com").
  - exact sample_reports_suffixes.
  - reflexivity.
Defined.

(** X10. When [icannSuffix] returns, it has done so within as many
    iterations (lookups) as the domain has dot-separated labels. *)
Theorem icannSuffix_lookups_bounded_by_labels
  (PS : string -> string * bool) (fuel : nat) (domain r : string) :
  reports_suffixes PS ->
  icannSuffix PS fuel domain = Ret r ->
  icannSuffix PS (label_count domain) domain = Ret r.
Proof.
  intros C R. rewrite label_count_dots.
  exact (icannSuffix_within_labels PS C fuel domain r R).
Qed.

Lemma icannSuffix_lookups_bounded_by_labels_witness :
  icannSuffix sample_PublicSuffix (label_count "foo.blogspot.com")
    "foo.blogspot.com" = Ret "com".
Proof.
  apply (icannSuffix_lookups_bounded_by_labels sample_PublicSuffix 100
           "foo.blogspot.com" "com").
  - exact sample_reports_suffixes.
  - reflexivity.
Defined.

(** X11. When the loop returns the ICANN suffix [ps] of a domain,
    [registeredDomain] returns the empty string exactly if [ps] is the
    whole domain (the domain is itself a public suffix); otherwise it
    returns a dot-delimited trailing substring of the domain made of one
    label, a dot and [ps]. *)
Theorem registeredDomain_empty_or_label_and_suffix
  (PS : string -> string * bool) (fuel : nat) (domain ps : string) :
  reports_suffixes PS ->
  icannSuffix PS fuel domain = Ret ps ->
  (ps = domain /\ registeredDomain PS fuel domain = Ret "")
  \/ (ps <> domain
      /\ exists label,
           count_dots label = O
           /\ registeredDomain PS fuel domain = Ret (label ++ "." ++ ps)
           /\ dot_suffix (label ++ "." ++ ps) domain).
Proof.
  intros C R. destruct (string_dec ps domain) as [->|N].
  - left. split; [reflexivity|].
    unfold registeredDomain. rewrite R. simpl. apply suffixPlusOne_whole.
  - right. split; [exact N|].
    destruct (registeredDomain_adds_label PS C fuel domain ps R N)
      as (p & -> & H).
    exists (last_label p). split; [apply last_label_no_dot|].
    split; [exact H|]. apply dot_suffix_app, last_label_dot_suffix.
Qed.

Lemma registeredDomain_empty_or_label_and_suffix_witness :
  registeredDomain sample_PublicSuffix 1 "com.au" = Ret ""
  \/ exists label,
       count_dots label = O
       /\ registeredDomain sample_PublicSuffix 1 "com.au"
          = Ret (label ++ "." ++ "com.au").
Proof.
  destruct (registeredDomain_empty_or_label_and_suffix sample_PublicSuffix 1
              "com.au" "com.au" sample_reports_suffixes eq_refl)
    as [[_ E]|[_ (label & D & E & _)]].
  - left. exact E.
  - right. exists label. split; [exact D | exact E].
Defined.

(** ** Which placeholders always return *)

Lemma suffixPlusOne_returns (domain suffix : string) :
  exists r, suffixPlusOne domain suffix = Ret r.
Proof.
  destruct (Z.lt_ge_cases (len suffix) (len domain)) as [L|L].
  - destruct (suffixPlusOne_room domain suffix L) as (c & _ & ->).
    destruct (Ascii.eqb c "."); eauto.
  - exists "". unfold suffixPlusOne.
    replace (len suffix >=? len domain) with true
      by (symmetry; rewrite Z.geb_leb; apply Z.leb_le; lia).
    reflexivity.
Qed.

(** X12. The placeholders [is_icann], [domain_suffix] and
    [public_registered_domain] return a value for every domain and every
    lookup, without running the loop of [icannSuffix]: they need no
    iteration at all and cannot hang or panic. *)
Theorem loop_free_outputs_always_return (PS : string -> string * bool)
  (domain : string) :
  output PS 0 "is_icann" domain = Ret (Some (boolean (snd (PS domain))))
  /\ output PS 0 "domain_suffix" domain = Ret (Some (str (fst (PS domain))))
  /\ exists s,
       output PS 0 "public_registered_domain" domain = Ret (Some (str s))
       /\ (snd (PS domain) = false -> s = "").
Proof.
  unfold output, is_icann, domain_suffix, public_registered_domain. simpl.
  destruct (PS domain) as [eTLD icann]. simpl. repeat split.
  destruct icann.
  - destruct (suffixPlusOne_returns domain eTLD) as [s ->].
    exists s. split; [reflexivity | discriminate].
  - exists "". split; reflexivity.
Qed.

Lemma output_never_panics (PS : string -> string * bool) (fuel : nat)
  (ending domain : string) :
  output PS fuel ending domain <> Panic.
Proof.
  unfold output.
  repeat match goal with
         | |- (if ?g then _ else _) <> _ => destruct g
         end; try discriminate.
  - unfold registered_domain, registeredDomain.
    destruct (icannSuffix PS fuel domain) as [ps| |] eqn:E; simpl;
      [|now apply icannSuffix_no_panic in E|discriminate].
    destruct (suffixPlusOne_returns domain ps) as [x ->].
    discriminate.
  - unfold public_registered_domain.
    destruct (PS domain) as [eTLD [|]]; simpl; [|discriminate].
    destruct (suffixPlusOne_returns domain eTLD) as [x ->].
    discriminate.
  - unfold public_suffix.
    destruct (icannSuffix PS fuel domain) as [ps| |] eqn:E; simpl;
      [discriminate|now apply icannSuffix_no_panic in E|discriminate].
Qed.

(** X13. No placeholder panics: for every lookup, request and key the
    function handed to the replacer returns a value or is still in the
    loop of [icannSuffix].  The reads of [parts[0]], [parts[1]] and
    [parts[2]] are in range because the check [len(parts) < 3] comes
    first, and the index into the domain and the slices of
    [suffixPlusOne] stay in bounds on every path. *)
Theorem placeholder_never_panics (PS : string -> string * bool)
  (fuel : nat) (r : Request) (key : string) :
  placeholder PS fuel r key <> Panic.
Proof.
  unfold placeholder.
  match goal with
  | |- (if ?g then _ else _) <> _ => destruct g; [discriminate|]
  end.
  destruct (Z.of_nat (List.length (strings.Split key ".")) <? 3) eqn:L;
    [discriminate|].
  apply Z.ltb_ge in L.
  destruct (strings.Split key ".") as [|p0 [|p1 [|p2 more]]];
    simpl List.length in L; try lia.
  cbn [part_at nth_error bind].
  destruct (inputHost r p0 p1); [|discriminate].
  apply output_never_panics.
Qed.

(** ** The letter case of the host *)

Lemma case_free_dot : case_free ".".
Proof. exact lower_byte_dot. Qed.

Lemma case_free_colon : case_free ":".
Proof. intros a. destruct a as [[] [] [] [] [] [] [] []]; reflexivity. Qed.

Lemma case_free_lbracket : case_free "[".
Proof. intros a. destruct a as [[] [] [] [] [] [] [] []]; reflexivity. Qed.

Lemma case_free_rbracket : case_free "]".
Proof. intros a. destruct a as [[] [] [] [] [] [] [] []]; reflexivity. Qed.

Lemma len_ToLower (s : string) : len (strings.ToLower s) = len s.
Proof.
  unfold len. f_equal.
  induction s as [|c s IH]; simpl; [reflexivity | now rewrite IH].
Qed.

Lemma ToLower_take (n : nat) (s : string) :
  strings.ToLower (take n s) = take n (strings.ToLower s).
Proof.
  revert s; induction n as [|n IH]; intros [|c s]; simpl; try reflexivity.
  now rewrite IH.
Qed.

Lemma ToLower_drop (n : nat) (s : string) :
  strings.ToLower (drop n s) = drop n (strings.ToLower s).
Proof.
  revert s; induction n as [|n IH]; intros [|c s]; simpl; try reflexivity.
  apply IH.
Qed.

Lemma get_ToLower (n : nat) (s : string) :
  String.get n (strings.ToLower s)
  = option_map strings.lower_byte (String.get n s).
Proof.
  revert n; induction s as [|c s IH]; intros n; simpl; [reflexivity|].
  destruct n as [|n]; [reflexivity | apply IH].
Qed.

Lemma IndexByte_ToLower (s : string) (c : ascii) :
  case_free c ->
  strings.IndexByte (strings.ToLower s) c = strings.IndexByte s c.
Proof.
  intros F. induction s as [|a s IH]; simpl; [reflexivity|].
  now rewrite F, IH.
Qed.

Lemma LastIndexByte_ToLower (s : string) (c : ascii) :
  case_free c ->
  strings.LastIndexByte (strings.ToLower s) c = strings.LastIndexByte s c.
Proof.
  intros F. induction s as [|a s IH]; simpl; [reflexivity|].
  now rewrite F, IH.
Qed.

Lemma last_dot_ToLower (s : string) :
  Decomposer.last_dot (strings.ToLower s) = Decomposer.last_dot s.
Proof.
  induction s as [|a s IH]; simpl; [reflexivity|].
  now rewrite lower_byte_dot, IH.
Qed.

Lemma HasPrefix_ToLower_bracket (s : string) :
  strings.HasPrefix (strings.ToLower s) "[" = strings.HasPrefix s "[".
Proof.
  destruct s as [|a s]; simpl; [reflexivity|].
  now rewrite case_free_lbracket, !HasPrefix_empty.
Qed.

(** [SplitHostPort] on an address that begins with a bracket. *)
Lemma SplitHostPort_bracketed (hostport : string) :
  strings.HasPrefix hostport "[" = true ->
  net.SplitHostPort hostport =
  let i := strings.LastIndexByte hostport ":" in
  if i <? 0 then None
  else
    let end_ := strings.IndexByte hostport "]" in
    if end_ <? 0 then None
    else if end_ + 1 =? len hostport then None
    else if end_ + 1 =? i then
      if 0 <=? strings.IndexByte (drop 1 hostport) "[" then None
      else if 0 <=? strings.IndexByte (drop (Z.to_nat (end_ + 1)) hostport) "]"
      then None
      else Some (take (Z.to_nat (end_ - 1)) (drop 1 hostport),
                 drop (Z.to_nat (i + 1)) hostport)
    else None.
Proof.
  unfold net.SplitHostPort. destruct hostport as [|a s]; [discriminate|].
  destruct a as [[] [] [] [] [] [] [] []]; intros H;
    try (simpl in H; discriminate H).
  reflexivity.
Qed.

(** Lower-casing an address lower-cases its host and its port, and changes
    nothing else of how it splits. *)
Lemma SplitHostPort_ToLower (hostport : string) :
  net.SplitHostPort (strings.ToLower hostport) =
  match net.SplitHostPort hostport with
  | Some (host, port) => Some (strings.ToLower host, strings.ToLower port)
  | None => None
  end.
Proof.
  destruct (strings.HasPrefix hostport "[") eqn:B.
  - rewrite (SplitHostPort_bracketed hostport B).
    rewrite (SplitHostPort_bracketed (strings.ToLower hostport))
      by (now rewrite HasPrefix_ToLower_bracket).
    cbv zeta.
    rewrite <- !ToLower_drop, <- !ToLower_take, len_ToLower.
    rewrite !(LastIndexByte_ToLower _ _ case_free_colon).
    rewrite !(IndexByte_ToLower _ _ case_free_lbracket).
    rewrite !(IndexByte_ToLower _ _ case_free_rbracket).
    repeat match goal with
           | |- context [if ?g then _ else _] => destruct g
           end; reflexivity.
  - rewrite (SplitHostPort_unbracketed hostport B).
    rewrite (SplitHostPort_unbracketed (strings.ToLower hostport))
      by (now rewrite HasPrefix_ToLower_bracket).
    cbv zeta.
    rewrite <- !ToLower_drop, <- !ToLower_take.
    rewrite !(LastIndexByte_ToLower _ _ case_free_colon).
    rewrite !(IndexByte_ToLower _ _ case_free_colon).
    rewrite !(IndexByte_ToLower _ _ case_free_lbracket).
    rewrite !(IndexByte_ToLower _ _ case_free_rbracket).
    repeat match goal with
           | |- context [if ?g then _ else _] => destruct g
           end; reflexivity.
Qed.

(** The port is stripped from the lower-cased host as from the host. *)
Lemma hostDomain_ToLower (host : string) :
  hostDomain (strings.ToLower host) = strings.ToLower (hostDomain host).
Proof.
  unfold hostDomain. rewrite SplitHostPort_ToLower.
  now destruct (net.SplitHostPort host) as [[d p]|].
Qed.

(** [suffixPlusOne] cuts the lower-cased domain where it cuts the
    domain. *)
Lemma suffixPlusOne_ToLower (domain suffix : string) :
  suffixPlusOne (strings.ToLower domain) suffix
  = (r <- suffixPlusOne domain suffix ;; Ret (strings.ToLower r)).
Proof.
  destruct (Z.lt_ge_cases (len suffix) (len domain)) as [L|L].
  - destruct (suffixPlusOne_room domain suffix L) as (c & Hc & ->).
    destruct (suffixPlusOne_room (strings.ToLower domain) suffix)
      as (c' & Hc' & ->); [now rewrite len_ToLower|].
    rewrite len_ToLower in *. rewrite get_ToLower, Hc in Hc'.
    injection Hc' as <-. rewrite lower_byte_dot.
    destruct (Ascii.eqb c "."); simpl; [|reflexivity].
    rewrite <- ToLower_take, !LastIndex_dot, last_dot_ToLower, ToLower_drop.
    reflexivity.
  - unfold suffixPlusOne. rewrite len_ToLower.
    replace (len suffix >=? len domain) with true
      by (symmetry; rewrite Z.geb_leb; apply Z.leb_le; lia).
    reflexivity.
Qed.

(** The loop sees its domain through the lookup only. *)
Lemma icannSuffix_same_answer (PS : string -> string * bool)
  (d1 d2 : string) :
  PS d1 = PS d2 ->
  forall fuel, icannSuffix PS fuel d1 = icannSuffix PS fuel d2.
Proof.
  intros H fuel. induction fuel as [|fuel IH]; [reflexivity|].
  simpl. rewrite H. destruct (PS d2) as [e [|]]; [reflexivity|].
  destruct (strings.IndexByte e "." >=? 0); [reflexivity | exact IH].
Qed.

(** C4, as the code has it.  The handler strips the port and hands the
    host to the lookup in the letter case it has, and the string outputs
    are slices of that host.  For a host and its lower-cased form: the
    port is stripped alike; when the lookup answers the lower-cased
    domain as it answers the domain (same suffix, same authority),
    is_icann, domain_suffix and public_suffix are the same, and
    registered_domain and public_registered_domain of the lower-cased
    host are the lower-cased outputs of the host, the same when these
    hold no upper-case letter; when the lookup answers differently,
    is_icann or domain_suffix differs. *)
Theorem outputs_for_lower_cased_host (PS : string -> string * bool)
  (fuel : nat) (host : string) :
  hostDomain (strings.ToLower host) = strings.ToLower (hostDomain host)
  /\ (PS (strings.ToLower (hostDomain host)) = PS (hostDomain host) ->
      is_icann PS (hostDomain (strings.ToLower host))
      = is_icann PS (hostDomain host)
      /\ domain_suffix PS (hostDomain (strings.ToLower host))
         = domain_suffix PS (hostDomain host)
      /\ public_suffix PS fuel (hostDomain (strings.ToLower host))
         = public_suffix PS fuel (hostDomain host)
      /\ registered_domain PS fuel (hostDomain (strings.ToLower host))
         = (s <- registered_domain PS fuel (hostDomain host) ;;
            Ret (strings.ToLower s))
      /\ public_registered_domain PS (hostDomain (strings.ToLower host))
         = (s <- public_registered_domain PS (hostDomain host) ;;
            Ret (strings.ToLower s))
      /\ (forall s,
            registered_domain PS fuel (hostDomain host) = Ret s ->
            lower_case s = true ->
            registered_domain PS fuel (hostDomain (strings.ToLower host))
            = Ret s)
      /\ (forall s,
            public_registered_domain PS (hostDomain host) = Ret s ->
            lower_case s = true ->
            public_registered_domain PS (hostDomain (strings.ToLower host))
            = Ret s))
  /\ (PS (strings.ToLower (hostDomain host)) <> PS (hostDomain host) ->
      is_icann PS (hostDomain (strings.ToLower host))
      <> is_icann PS (hostDomain host)
      \/ domain_suffix PS (hostDomain (strings.ToLower host))
         <> domain_suffix PS (hostDomain host)).
Proof.
  rewrite hostDomain_ToLower. generalize (hostDomain host). intros d.
  split; [reflexivity | split].
  - intros H.
    assert (R : registered_domain PS fuel (strings.ToLower d)
                = (s <- registered_domain PS fuel d ;;
                   Ret (strings.ToLower s))).
    { unfold registered_domain, registeredDomain.
      rewrite (icannSuffix_same_answer PS _ _ H fuel).
      destruct (icannSuffix PS fuel d) as [ps| |]; simpl;
        [apply suffixPlusOne_ToLower | reflexivity | reflexivity]. }
    assert (P : public_registered_domain PS (strings.ToLower d)
                = (s <- public_registered_domain PS d ;;
                   Ret (strings.ToLower s))).
    { unfold public_registered_domain. rewrite H.
      destruct (PS d) as [e [|]];
        [apply suffixPlusOne_ToLower | reflexivity]. }
    unfold is_icann, domain_suffix, public_suffix. rewrite H.
    repeat split.
    + apply (icannSuffix_same_answer PS _ _ H).
    + exact R.
    + exact P.
    + intros s E L. rewrite R, E. simpl. now rewrite (ToLower_lower_case s L).
    + intros s E L. rewrite P, E. simpl. now rewrite (ToLower_lower_case s L).
  - intros N. unfold is_icann, domain_suffix.
    destruct (PS (strings.ToLower d)) as [e' b'], (PS d) as [e b].
    destruct (Bool.bool_dec b' b) as [->|Nb]; [|now left].
    destruct (string_dec e' e) as [->|Ne]; [|now right].
    now contradiction N.
Qed.

Lemma outputs_for_lower_cased_host_witness :
  registered_domain sample_PublicSuffix 1
    (hostDomain (strings.ToLower "WWW.Example.com:8080"))
  = Ret "example.com"
  /\ registered_domain sample_PublicSuffix 1
       (hostDomain "WWW.Example.com:8080") = Ret "Example.com"
  /\ domain_suffix sample_PublicSuffix
       (hostDomain (strings.ToLower "WWW.Example.com:8080"))
     = domain_suffix sample_PublicSuffix
         (hostDomain "WWW.Example.com:8080").
Proof.
  destruct (proj1 (proj2 (outputs_for_lower_cased_host sample_PublicSuffix 1
                            "WWW.Example.com:8080")) eq_refl)
    as (_ & D & _ & R & _).
  split; [exact R | split; [reflexivity | exact D]].
Defined.
